(** * Beer tracker: exchange-rate client, price calculator and entry service

    A shallow embedding of [app/models.py] ([CurrencyEnum], [BeerEntry],
    [BeerEntryCreate], [ExchangeRateService]) and of the service layer of
    [app/beer_tracker.py] ([BeerTrackerService]), followed by the properties
    of the specification that concern them. *)

From Stdlib Require Import ZArith NArith List String Ascii Bool Lia.
From Stdlib Require Import DecimalString.
From Stdlib Require DecimalN.
Import ListNotations.

Local Open Scope string_scope.
Local Open Scope Z_scope.
Set Warnings "-register-all".

(** ** Python's [decimal.Decimal] under the default context *)

Module Dec.

(** A decimal is a sign, a coefficient and an exponent, or one of the special
    values.  The coefficient is the integer that the digit string [_int]
    denotes (Python keeps it without leading zeros). *)
Inductive Decimal : Type :=
| Finite (sign : bool) (coeff : N) (exp : Z)
| Infinity (sign : bool)
| NaN (sign : bool) (signaling : bool) (payload : N).

(** The signals of the default context that are trapped, that is, raised as
    exceptions: [InvalidOperation] and [Overflow] ([DivisionByZero] cannot
    arise from a product). *)
Inductive Signal : Type := InvalidOperation | Overflow.

(** [DefaultContext]: prec=28, rounding=ROUND_HALF_EVEN, Emax=999999,
    Emin=-999999, clamp=0. *)
Definition prec : Z := 28.
Definition Emax : Z := 999999.
Definition Emin : Z := -999999.
Definition Etiny : Z := Emin - prec + 1.
Definition Etop : Z := Emax - prec + 1.

(** [len(self._int)] *)
Definition ndigits (c : N) : Z :=
  Z.of_nat (Decimal.nb_digits (N.to_uint c)).

Definition pow10 (k : Z) : N := Z.to_N (10 ^ k).

(** [Decimal._fix_nan]: a payload longer than the precision keeps its last
    [prec] digits. *)
Definition _fix_nan (s sg : bool) (payload : N) : Decimal :=
  if prec <? ndigits payload
  then NaN s sg (payload mod pow10 prec)
  else NaN s sg payload.

(** [Decimal._round_half_even] on the coefficient [c] cut [k] digits from the
    right: 1 to round away from zero, 0 when the dropped digits are zeros,
    -1 to truncate. *)
Definition _round_half_even (c : N) (k : Z) : Z :=
  let q := (c / pow10 k)%N in
  let r := (c mod pow10 k)%N in
  let half := (5 * pow10 (k - 1))%N in
  if (N.eqb r half && N.even q)%bool then -1
  else if (half <=? r)%N then 1
  else if N.eqb r 0 then 0
  else -1.

(** [Decimal._fix]: round to the precision of the context and keep the
    exponent in range.  Only the trapped signal [Overflow] ends the
    computation; [Clamped], [Rounded], [Inexact], [Subnormal] and [Underflow]
    only set flags. *)
Definition _fix (d : Decimal) : Signal + Decimal :=
  match d with
  | NaN s sg p => inr (_fix_nan s sg p)
  | Infinity s => inr (Infinity s)
  | Finite s c e =>
      if N.eqb c 0 then
        inr (Finite s 0 (Z.min (Z.max e Etiny) Emax))
      else
        let exp_min := ndigits c + e - prec in
        if Etop <? exp_min then inl Overflow
        else
          let exp_min := if exp_min <? Etiny then Etiny else exp_min in
          if e <? exp_min then
            let digits := ndigits c + e - exp_min in
            let '(c, e) := if digits <? 0 then (1%N, exp_min - 1) else (c, e) in
            let k := exp_min - e in
            let changed := _round_half_even c k in
            let coeff := (c / pow10 k)%N in
            let '(coeff, exp_min) :=
              if 0 <? changed then
                let coeff := (coeff + 1)%N in
                if prec <? ndigits coeff
                then ((coeff / 10)%N, exp_min + 1)
                else (coeff, exp_min)
              else (coeff, exp_min) in
            if Etop <? exp_min then inl Overflow
            else inr (Finite s coeff exp_min)
          else inr (Finite s c e)
  end.

(** [Decimal.__mul__].  The source's shortcuts for a zero operand and for a
    coefficient ['1'] build the same triple as the general case, so one
    branch covers the three. *)
Definition mul (a b : Decimal) : Signal + Decimal :=
  match a, b with
  | NaN _ true _, _ => inl InvalidOperation
  | _, NaN _ true _ => inl InvalidOperation
  | NaN s false p, _ => inr (_fix_nan s false p)
  | _, NaN s false p => inr (_fix_nan s false p)
  | Infinity sa, Infinity sb => inr (Infinity (xorb sa sb))
  | Infinity sa, Finite sb cb _ =>
      if N.eqb cb 0 then inl InvalidOperation else inr (Infinity (xorb sa sb))
  | Finite sa ca _, Infinity sb =>
      if N.eqb ca 0 then inl InvalidOperation else inr (Infinity (xorb sa sb))
  | Finite sa ca ea, Finite sb cb eb =>
      _fix (Finite (xorb sa sb) (ca * cb) (ea + eb))
  end.

(** [Decimal("1.0")] and [Decimal("0")] *)
Definition one_point_zero : Decimal := Finite false 10 (-1).
Definition zero : Decimal := Finite false 0 0.

End Dec.

Export Dec(Decimal).

(** ** Data model ([app/models.py]) *)

(** [class CurrencyEnum(str, Enum)] *)
Inductive CurrencyEnum : Type := EUR | USD.

Definition value (c : CurrencyEnum) : string :=
  match c with EUR => "EUR" | USD => "USD" end.

Definition CurrencyEnum_eqb (a b : CurrencyEnum) : bool :=
  match a, b with
  | EUR, EUR | USD, USD => true
  | _, _ => false
  end.

(** [datetime.date]: a calendar date. *)
Record date : Type := mkdate { year : nat; month : nat; day : nat }.

(** Decimal digits of [n], left-padded with zeros to [width] characters. *)
Fixpoint zeros (n : nat) : string :=
  match n with O => "" | S n => String "0" (zeros n) end.

Definition zfill (width : nat) (n : nat) : string :=
  let s := NilZero.string_of_uint (Nat.to_uint n) in
  zeros (width - String.length s) ++ s.

(** [date.isoformat()]: YYYY-MM-DD *)
Definition isoformat (d : date) : string :=
  zfill 4 (year d) ++ "-" ++ zfill 2 (month d) ++ "-" ++ zfill 2 (day d).

(** [datetime.datetime], as microseconds since the epoch. *)
Definition datetime : Type := Z.

(** [class BeerEntry(SQLModel, table=True)] *)
Record BeerEntry : Type := mkBeerEntry {
  id : option Z;
  beer_name : string;
  original_price : Decimal;
  original_currency : CurrencyEnum;
  purchase_date : date;
  eur_price : Decimal;
  usd_price : Decimal;
  exchange_rate : Decimal;
  created_at : datetime
}.

(** [class BeerEntryCreate(SQLModel, table=False)]; the fields carry the
    prefix [c_] because [BeerEntry] has fields of the same names. *)
Record BeerEntryCreate : Type := mkBeerEntryCreate {
  c_beer_name : string;
  c_original_price : Decimal;
  c_original_currency : CurrencyEnum;
  c_purchase_date : date
}.

(** ** Exceptions, effects and the outside world *)

(** The exception classes (subclasses of [Exception]) that travel through
    the modelled code.  The list is what the modelled calls raise, not all
    that Python can raise: no statement below rests on its being closed. *)
Inductive Exn : Type :=
| RequestError                        (* httpx.RequestError *)
| HTTPStatusError                     (* httpx.HTTPStatusError *)
| KeyError
| ValueError                          (* includes json.JSONDecodeError *)
| AttributeError
| RecursionError                      (* [response.json()] on a body nested too deep *)
| DecimalException (s : Dec.Signal)   (* decimal.InvalidOperation, decimal.Overflow *)
| DatabaseError.                      (* any error raised by the store *)

Inductive Result (A : Type) : Type :=
| Return (a : A)
| Raise (e : Exn).
Arguments Return {A} a.
Arguments Raise {A} e.

(** A JSON value as [response.json()] hands it to the program.  The program
    applies [Decimal(str(v))] to a value and nothing else, so a number is
    kept as the decimal that [Decimal(str(n))] denotes, and a string as the
    outcome of [Decimal(s)]: [None] when [s] is not a numeric string. *)
Inductive json : Type :=
| JNull
| JBool (b : bool)
| JNumber (d : Decimal)
| JString (numeric : option Decimal)
| JArray (items : list json)
| JObject (members : list (string * json)).

(** What the rate provider does with one GET request. *)
Inductive HttpOutcome : Type :=
| TransportFailure                                   (* [client.get] raises httpx.RequestError *)
| HttpResponse (status_code : Z) (body : option json) (* [body = None]: the body is not JSON *)
| HttpResponseTooDeep (status_code : Z).             (* JSON nested deeper than the parser follows *)

(** The body of a response as [response.json()] meets it. *)
Inductive Content : Type :=
| Json (data : json)
| NotJson
| TooDeep.

(** The calls made on a database session. *)
Inductive DbOp : Type := OpOpen | OpAdd | OpGet | OpDelete | OpCommit | OpRefresh | OpExec.

(** Everything one service call reads from outside: the provider's answer to
    a URL, the clock, which session call, if any, raises, and how the
    database engine rounds: [rounds_up d scale] says whether, cutting the
    value [d] to [scale] fractional digits, it raises the last digit kept. *)
Record Env : Type := mkEnv {
  provider : string -> HttpOutcome;
  utcnow : datetime;
  db_fault : DbOp -> option Exn;
  rounds_up : Decimal -> Z -> bool
}.

(** The table [beer_entries]: its rows in insertion order and the next
    identifier the store will assign. *)
Record Store : Type := mkStore { rows : list BeerEntry; next_id : Z }.

(** The observable effects, newest first. *)
Inductive Event : Type :=
| EvRequest (url : string)                      (* a GET sent to the provider *)
| EvCommit                                      (* a commit attempted on the store *)
| EvNotify (message : string) (cause : Exn).    (* [ui.notify(f"{message}{str(e)}", type="negative")] *)

Record World : Type := mkWorld { store : Store; trace : list Event }.

(** Computations that read and change the world and may raise. *)
Definition M (A : Type) : Type := World -> Result A * World.

Definition ret {A} (a : A) : M A := fun w => (Return a, w).
Definition raise {A} (e : Exn) : M A := fun w => (Raise e, w).
Definition bind {A B} (m : M A) (k : A -> M B) : M B :=
  fun w =>
    match m w with
    | (Return a, w') => k a w'
    | (Raise e, w') => (Raise e, w')
    end.
(** [try: body  except ...: handler] *)
Definition try_except {A} (body : M A) (handler : Exn -> M A) : M A :=
  fun w =>
    match body w with
    | (Return a, w') => (Return a, w')
    | (Raise e, w') => handler e w'
    end.
Definition emit (ev : Event) : M unit :=
  fun w => (Return tt, {| store := store w; trace := ev :: trace w |}).
Definition get_store : M Store := fun w => (Return (store w), w).
Definition put_store (s : Store) : M unit :=
  fun w => (Return tt, {| store := s; trace := trace w |}).

Notation "x <- m ;; k" := (bind m (fun x => k))
  (at level 61, m at next level, right associativity).
Notation "m ;;; k" := (bind m (fun _ => k))
  (at level 61, right associativity).

(** ** The exchange-rate client and the price calculator *)

Definition BASE_URL : string := "https://api.exchangerate-api.com/v4/historical".

(** [await client.get(url)] *)
Definition client_get (env : Env) (url : string) : M (Z * Content) :=
  emit (EvRequest url) ;;;
  match provider env url with
  | TransportFailure => raise RequestError
  | HttpResponse status (Some data) => ret (status, Json data)
  | HttpResponse status None => ret (status, NotJson)
  | HttpResponseTooDeep status => ret (status, TooDeep)
  end.

(** [response.raise_for_status()] *)
Definition raise_for_status (status : Z) : M unit :=
  if (200 <=? status) && (status <=? 299) then ret tt else raise HTTPStatusError.

(** [response.json()] *)
Definition response_json (body : Content) : M json :=
  match body with
  | Json data => ret data
  | NotJson => raise ValueError
  | TooDeep => raise RecursionError
  end.

Fixpoint assoc (key : string) (members : list (string * json)) : option json :=
  match members with
  | [] => None
  | (k, v) :: rest => if String.eqb k key then Some v else assoc key rest
  end.

(** [obj.get(key, default)]: only a dict has the method. *)
Definition dict_get (obj : json) (key : string) (default : json) : M json :=
  match obj with
  | JObject members =>
      match assoc key members with
      | Some v => ret v
      | None => ret default
      end
  | _ => raise AttributeError
  end.

(** [Decimal(str(rate))] *)
Definition Decimal_of_json (rate : json) : M Decimal :=
  match rate with
  | JNumber d => ret d
  | JString (Some d) => ret d
  | _ => raise (DecimalException Dec.InvalidOperation)
  end.

(** [except (httpx.RequestError, httpx.HTTPStatusError, KeyError, ValueError)] *)
Definition caught (e : Exn) : bool :=
  match e with
  | RequestError | HTTPStatusError | KeyError | ValueError => true
  | _ => false
  end.

(** [ExchangeRateService.get_exchange_rate] *)
Definition get_exchange_rate (env : Env)
    (from_currency to_currency : CurrencyEnum) (rate_date : date)
  : M (option Decimal) :=
  if CurrencyEnum_eqb from_currency to_currency then
    ret (Some Dec.one_point_zero)
  else
    try_except
      (let url := BASE_URL ++ "/" ++ value from_currency ++ "/" ++ isoformat rate_date in
       response <- client_get env url ;;
       raise_for_status (fst response) ;;;
       data <- response_json (snd response) ;;
       rates <- dict_get data "rates" (JObject []) ;;
       rate <- dict_get rates (value to_currency) JNull ;;
       match rate with
       | JNull => ret None
       | _ => d <- Decimal_of_json rate ;; ret (Some d)
       end)
      (fun e => if caught e then ret None else raise e).

(** [original_price * exchange_rate] *)
Definition Decimal_mul (a b : Decimal) : M Decimal :=
  match Dec.mul a b with
  | inr d => ret d
  | inl s => raise (DecimalException s)
  end.

(** [ExchangeRateService.calculate_prices] *)
Definition calculate_prices (env : Env)
    (original_price : Decimal) (original_currency : CurrencyEnum) (purchase_date : date)
  : M (Decimal * Decimal * Decimal) :=
  match original_currency with
  | EUR =>
      exchange_rate <- get_exchange_rate env EUR USD purchase_date ;;
      match exchange_rate with
      | Some exchange_rate =>
          let eur_price := original_price in
          usd_price <- Decimal_mul original_price exchange_rate ;;
          ret (eur_price, usd_price, exchange_rate)
      | None => ret (original_price, Dec.zero, Dec.one_point_zero)
      end
  | USD =>
      exchange_rate <- get_exchange_rate env USD EUR purchase_date ;;
      match exchange_rate with
      | Some exchange_rate =>
          let usd_price := original_price in
          eur_price <- Decimal_mul original_price exchange_rate ;;
          ret (eur_price, usd_price, exchange_rate)
      | None => ret (Dec.zero, original_price, Dec.one_point_zero)
      end
  end.

(** ** The entry repository *)

(** Modelled from the spec: [app.database.get_session] and the session it
    yields are not among the sources.  The specification describes a
    relational table whose identifiers the store assigns on creation, units
    of work of the form open, act, commit, close, commits that either apply
    the whole unit or nothing, and listing in insertion order.  A session
    holds the objects added to it and the identifiers marked for deletion
    until the commit.  The decimal columns have a fixed scale, two
    fractional digits for the three prices and six for the rate: a row
    holds the values at that scale ([to_column]), and that is what a re-read
    returns.  Any call on the session may raise, as [db_fault] says. *)
Record Session : Type := mkSession { objects : list BeerEntry; deleted : list Z }.

Definition fault (env : Env) (op : DbOp) : M unit :=
  match db_fault env op with
  | Some e => raise e
  | None => ret tt
  end.

(** Modelled from the spec: what a decimal column of [scale] fractional
    digits holds for a value handed to it.  A value with fewer fractional
    digits is padded with zeros.  One with more is cut to the scale; when the
    digits cut are not all zeros, the engine's rounding [up], which the
    specification leaves open, decides whether the last digit kept is raised.
    Special values are handed through, and the digits before the point are
    not limited: a value the engine refuses is a commit that raises. *)
Definition to_column (up : Decimal -> Z -> bool) (scale : Z) (d : Decimal) : Decimal :=
  match d with
  | Dec.Finite s c e =>
      if - scale <=? e then
        Dec.Finite s (c * Dec.pow10 (e + scale)) (- scale)
      else
        let k := - scale - e in
        let q := (c / Dec.pow10 k)%N in
        let r := (c mod Dec.pow10 k)%N in
        Dec.Finite s (if N.eqb r 0 then q else if up d scale then q + 1 else q)%N (- scale)
  | _ => d
  end.
Arguments to_column : simpl never.

(** Modelled from the spec: the row that the table [beer_entries] keeps for
    an object inserted under identifier [i]: [original_price], [eur_price]
    and [usd_price] in columns of scale 2, [exchange_rate] in a column of
    scale 6 ([Field(decimal_places=...)] of [BeerEntry]). *)
Definition as_row (env : Env) (i : Z) (e : BeerEntry) : BeerEntry :=
  {| id := Some i;
     beer_name := beer_name e;
     original_price := to_column (rounds_up env) 2 (original_price e);
     original_currency := original_currency e;
     purchase_date := purchase_date e;
     eur_price := to_column (rounds_up env) 2 (eur_price e);
     usd_price := to_column (rounds_up env) 2 (usd_price e);
     exchange_rate := to_column (rounds_up env) 6 (exchange_rate e);
     created_at := created_at e |}.

Definition has_id (i : Z) (e : BeerEntry) : bool :=
  match id e with
  | Some j => Z.eqb i j
  | None => false
  end.

(** Modelled from the spec: the insert of the pending objects at commit;
    each object without an identifier becomes a new last row, with the next
    identifier of the store and its decimals at the scale of their
    columns. *)
Fixpoint flush (env : Env) (objs : list BeerEntry) (st : Store) : list BeerEntry * Store :=
  match objs with
  | [] => ([], st)
  | o :: rest =>
      match id o with
      | None =>
          let o' := as_row env (next_id st) o in
          let '(rest', st') :=
            flush env rest {| rows := (rows st ++ [o'])%list; next_id := next_id st + 1 |} in
          (o' :: rest', st')
      | Some _ =>
          let '(rest', st') := flush env rest st in
          (o :: rest', st')
      end
  end.

(** Modelled from the spec: the removal at commit of the rows marked for
    deletion. *)
Definition purge (ids : list Z) (st : Store) : Store :=
  {| rows := filter (fun e => negb (existsb (fun i => has_id i e) ids)) (rows st);
     next_id := next_id st |}.

(** Modelled from the spec: [get_session()] of [app.database]. *)
Definition get_session (env : Env) : M Session :=
  fault env OpOpen ;;;
  ret {| objects := []; deleted := [] |}.

(** Modelled from the spec: [session.add(obj)]; the result also gives the
    position by which the session knows the object. *)
Definition session_add (env : Env) (s : Session) (obj : BeerEntry) : M (Session * nat) :=
  fault env OpAdd ;;;
  ret ({| objects := (objects s ++ [obj])%list; deleted := deleted s |},
       List.length (objects s)).

(** Modelled from the spec: [session.get(BeerEntry, entry_id)]. *)
Definition session_get (env : Env) (entry_id : Z) : M (option BeerEntry) :=
  fault env OpGet ;;;
  st <- get_store ;;
  ret (find (has_id entry_id) (rows st)).

(** Modelled from the spec: [session.delete(obj)]. *)
Definition session_delete (env : Env) (s : Session) (obj : BeerEntry) : M Session :=
  fault env OpDelete ;;;
  ret {| objects := objects s;
         deleted := match id obj with Some i => i :: deleted s | None => deleted s end |}.

(** Modelled from the spec: [session.commit()]; a commit that raises leaves
    the table as it was. *)
Definition session_commit (env : Env) (s : Session) : M Session :=
  emit EvCommit ;;;
  fault env OpCommit ;;;
  st <- get_store ;;
  let '(objs, st') := flush env (objects s) st in
  put_store (purge (deleted s) st') ;;;
  ret {| objects := objs; deleted := [] |}.

(** Modelled from the spec: [session.refresh(obj)], the re-read of the row
    of the object at position [h] of the session; the object then holds the
    values of the row, at the scale of the columns. *)
Definition session_refresh (env : Env) (s : Session) (h : nat) : M BeerEntry :=
  fault env OpRefresh ;;;
  st <- get_store ;;
  match nth_error (objects s) h with
  | Some obj =>
      match id obj with
      | Some i =>
          match find (has_id i) (rows st) with
          | Some row => ret row
          | None => raise DatabaseError
          end
      | None => raise DatabaseError
      end
  | None => raise DatabaseError
  end.

(** Modelled from the spec: [session.exec(select(BeerEntry))]. *)
Definition session_exec_select (env : Env) : M (list BeerEntry) :=
  fault env OpExec ;;;
  st <- get_store ;;
  ret (rows st).

(** ** The entry service ([BeerTrackerService]) *)

(** [ui.notify(f"{message}{str(e)}", type="negative")] *)
Definition notify (message : string) (e : Exn) : M unit := emit (EvNotify message e).

(** The body of the [try] of [create_beer_entry]. *)
Definition create_beer_entry_body (env : Env) (entry_data : BeerEntryCreate)
  : M (option BeerEntry) :=
  prices <- calculate_prices env (c_original_price entry_data)
              (c_original_currency entry_data) (c_purchase_date entry_data) ;;
  let '(eur_price, usd_price, exchange_rate) := prices in
  let beer_entry :=
    {| id := None;
       beer_name := c_beer_name entry_data;
       original_price := c_original_price entry_data;
       original_currency := c_original_currency entry_data;
       purchase_date := c_purchase_date entry_data;
       eur_price := eur_price;
       usd_price := usd_price;
       exchange_rate := exchange_rate;
       created_at := utcnow env |} in
  session <- get_session env ;;
  added <- session_add env session beer_entry ;;
  session <- session_commit env (fst added) ;;
  beer_entry <- session_refresh env session (snd added) ;;
  ret (Some beer_entry).

(** [BeerTrackerService.create_beer_entry] *)
Definition create_beer_entry (env : Env) (entry_data : BeerEntryCreate)
  : M (option BeerEntry) :=
  try_except (create_beer_entry_body env entry_data)
    (fun e => notify "Error creating beer entry: " e ;;; ret None).

(** [BeerTrackerService.get_all_beer_entries] *)
Definition get_all_beer_entries (env : Env) : M (list BeerEntry) :=
  get_session env ;;;
  session_exec_select env.

(** The body of the [try] of [delete_beer_entry]. *)
Definition delete_beer_entry_body (env : Env) (entry_id : Z) : M bool :=
  session <- get_session env ;;
  entry <- session_get env entry_id ;;
  match entry with
  | Some entry =>
      session <- session_delete env session entry ;;
      session_commit env session ;;;
      ret true
  | None => ret false
  end.

(** [BeerTrackerService.delete_beer_entry] *)
Definition delete_beer_entry (env : Env) (entry_id : Z) : M bool :=
  try_except (delete_beer_entry_body env entry_id)
    (fun e => notify "Error deleting entry: " e ;;; ret false).

(** ** Vocabulary of the statements *)

(** The other currency of the pair. *)
Definition counterpart (c : CurrencyEnum) : CurrencyEnum :=
  match c with EUR => USD | USD => EUR end.

(** The price of an entry expressed in currency [c]. *)
Definition price_in (c : CurrencyEnum) (e : BeerEntry) : Decimal :=
  match c with EUR => eur_price e | USD => usd_price e end.

(** The component for currency [c] of a result of [calculate_prices]. *)
Definition component (c : CurrencyEnum) (t : Decimal * Decimal * Decimal) : Decimal :=
  match c with EUR => fst (fst t) | USD => snd (fst t) end.

Definition is_request (ev : Event) : bool :=
  match ev with EvRequest _ => true | _ => false end.
Definition is_commit (ev : Event) : bool :=
  match ev with EvCommit => true | _ => false end.
Definition count (p : Event -> bool) (evs : list Event) : nat :=
  List.length (filter p evs).

(** A table as the store keeps it: every row has an identifier below the
    next one to be assigned, and no identifier occurs twice. *)
Definition store_wf (st : Store) : Prop :=
  Forall (fun e => exists i, id e = Some i /\ i < next_id st) (rows st)
  /\ NoDup (map id (rows st)).


(** A call of the service, with the outside world it meets. *)
Inductive Call : Type :=
| CallCreate (env : Env) (entry_data : BeerEntryCreate)
| CallList (env : Env)
| CallDelete (env : Env) (entry_id : Z).

Definition run (c : Call) (w : World) : World :=
  match c with
  | CallCreate env entry_data => snd (create_beer_entry env entry_data w)
  | CallList env => snd (get_all_beer_entries env w)
  | CallDelete env entry_id => snd (delete_beer_entry env entry_id w)
  end.

Definition run_all (calls : list Call) (w : World) : World :=
  fold_left (fun w c => run c w) calls w.

(** The object that [create_beer_entry] builds from its input and the
    result of the calculator (lines 33 to 41), before the store has seen
    it. *)
Definition entry_of (env : Env) (x : BeerEntryCreate) (prices : Decimal * Decimal * Decimal)
  : BeerEntry :=
  {| id := None;
     beer_name := c_beer_name x;
     original_price := c_original_price x;
     original_currency := c_original_currency x;
     purchase_date := c_purchase_date x;
     eur_price := fst (fst prices);
     usd_price := snd (fst prices);
     exchange_rate := snd prices;
     created_at := utcnow env |}.

(** ** Sample worlds *)

Definition no_faults : DbOp -> option Exn := fun _ => None.

(** An engine that rounds half away from zero, as PostgreSQL's [numeric]
    does. *)
Definition half_up (d : Decimal) (scale : Z) : bool :=
  match d with
  | Dec.Finite _ c e =>
      let k := - scale - e in
      (5 * Dec.pow10 (k - 1) <=? c mod Dec.pow10 k)%N
  | _ => false
  end.

Definition empty_world : World :=
  {| store := {| rows := []; next_id := 1 |}; trace := [] |}.

(** A provider that answers every request with status 200 and the body
    [{"rates": {"USD": usd, "EUR": eur}}]. *)
Definition quoting (usd eur : json) (url : string) : HttpOutcome :=
  HttpResponse 200 (Some (JObject [("rates", JObject [("USD", usd); ("EUR", eur)])])).

Definition d_2023_01_01 : date := mkdate 2023 1 1.

(** [Decimal("10.50")] and [Decimal("1.1")] *)
Definition d10_50 : Decimal := Dec.Finite false 1050 (-2).
Definition d1_1 : Decimal := Dec.Finite false 11 (-1).

Definition test_beer : BeerEntryCreate :=
  {| c_beer_name := "Test Beer";
     c_original_price := d10_50;
     c_original_currency := EUR;
     c_purchase_date := d_2023_01_01 |}.

(** A beer at 10.55 euros, whose price in dollars at the rate 1.1 has three
    fractional digits: 11.605. *)
Definition beer_10_55 : BeerEntryCreate :=
  {| c_beer_name := "Test Beer";
     c_original_price := Dec.Finite false 1055 (-2);
     c_original_currency := EUR;
     c_purchase_date := d_2023_01_01 |}.

Definition env_rate_1_1 : Env :=
  {| provider := quoting (JNumber d1_1) (JNumber (Dec.Finite false 9 (-1)));
     utcnow := 1672531200000000;
     db_fault := no_faults;
     rounds_up := half_up |}.

(** A provider whose answer is valid JSON of another shape:
    [{"rates": null}] with status 200. *)
Definition env_rates_null : Env :=
  {| provider := fun _ => HttpResponse 200 (Some (JObject [("rates", JNull)]));
     utcnow := 0;
     db_fault := no_faults;
     rounds_up := half_up |}.

(** A provider that quotes [Infinity] for the dollar. *)
Definition env_rate_infinity : Env :=
  {| provider := quoting (JNumber (Dec.Infinity false)) JNull;
     utcnow := 0;
     db_fault := no_faults;
     rounds_up := half_up |}.

(** A provider that cannot be reached. *)
Definition env_unreachable : Env :=
  {| provider := fun _ => TransportFailure; utcnow := 0; db_fault := no_faults;
     rounds_up := half_up |}.

(** A provider that quotes the rate [1] in both directions. *)
Definition env_rate_1 : Env :=
  {| provider := quoting (JNumber (Dec.Finite false 1 0)) (JNumber (Dec.Finite false 1 0));
     utcnow := 1672531200000000;
     db_fault := no_faults;
     rounds_up := half_up |}.

(** A store whose commit raises. *)
Definition env_commit_fails : Env :=
  {| provider := quoting (JNumber d1_1) JNull;
     utcnow := 1672531200000000;
     db_fault := fun op => match op with OpCommit => Some DatabaseError | _ => None end;
     rounds_up := half_up |}.

(** A store whose re-read after the commit raises. *)
Definition env_refresh_fails : Env :=
  {| provider := quoting (JNumber d1_1) JNull;
     utcnow := 1672531200000000;
     db_fault := fun op => match op with OpRefresh => Some DatabaseError | _ => None end;
     rounds_up := half_up |}.

(** The two entries of the listing scenario and a table that holds them. *)
Definition beer_one : BeerEntry :=
  {| id := Some 1; beer_name := "Beer One";
     original_price := Dec.Finite false 500 (-2); original_currency := EUR;
     purchase_date := mkdate 2023 1 1;
     eur_price := Dec.Finite false 500 (-2); usd_price := Dec.Finite false 550 (-2);
     exchange_rate := Dec.Finite false 1100000 (-6); created_at := 1672531200000000 |}.

Definition beer_two : BeerEntry :=
  {| id := Some 2; beer_name := "Beer Two";
     original_price := Dec.Finite false 800 (-2); original_currency := USD;
     purchase_date := mkdate 2023 1 2;
     eur_price := Dec.Finite false 720 (-2); usd_price := Dec.Finite false 800 (-2);
     exchange_rate := Dec.Finite false 900000 (-6); created_at := 1672617600000000 |}.

Definition two_beers : World :=
  {| store := {| rows := [beer_one; beer_two]; next_id := 3 |}; trace := [] |}.

(** Third beer of the scenario, bought in euros. *)
Definition beer_three : BeerEntryCreate :=
  {| c_beer_name := "Beer Three";
     c_original_price := d10_50;
     c_original_currency := EUR;
     c_purchase_date := d_2023_01_01 |}.

(** ** Further vocabulary and sample worlds *)

(** The address that [get_exchange_rate] builds for the rates of currency
    [c] on date [d]. *)
Definition rate_url (c : CurrencyEnum) (d : date) : string :=
  BASE_URL ++ "/" ++ value c ++ "/" ++ isoformat d.

Definition is_notify (ev : Event) : bool :=
  match ev with EvNotify _ _ => true | _ => false end.

(** A provider that answers every request with status 200 and [body]. *)
Definition answering (body : option json) : Env :=
  {| provider := fun _ => HttpResponse 200 body;
     utcnow := 1672531200000000;
     db_fault := no_faults;
     rounds_up := half_up |}.

(** A provider that answers with status 500. *)
Definition env_status_500 : Env :=
  {| provider := fun _ => HttpResponse 500 None;
     utcnow := 1672531200000000;
     db_fault := no_faults;
     rounds_up := half_up |}.

(** A store that cannot be opened. *)
Definition env_open_fails : Env :=
  {| provider := quoting (JNumber d1_1) JNull;
     utcnow := 1672531200000000;
     db_fault := fun op => match op with OpOpen => Some DatabaseError | _ => None end;
     rounds_up := half_up |}.

(** A provider that quotes a rate too large for the product with
    [Decimal("10.50")]: [Decimal("1E+999999")]. *)
Definition env_rate_huge : Env :=
  {| provider := quoting (JString (Some (Dec.Finite false 1 999999))) JNull;
     utcnow := 1672531200000000;
     db_fault := no_faults;
     rounds_up := half_up |}.

(** * Properties *)

(** ** Sample computations *)

Example mul_10_50_by_1_1 :
  Dec.mul (Dec.Finite false 1050 (-2)) (Dec.Finite false 11 (-1))
  = inr (Dec.Finite false 11550 (-3)).
Proof. reflexivity. Qed.

Example mul_rounds_to_28_digits :
  Dec.mul (Dec.Finite false 33333333333333333333 0) (Dec.Finite false 33333333333 0)
  = inr (Dec.Finite false 1111111111099999999988888889 3).
Proof. vm_compute. reflexivity. Qed.

Example mul_half_even :
  Dec.mul (Dec.Finite false 25 0) (Dec.Finite false 1000000000000000000000000001 (-1))
  = inr (Dec.Finite false 2500000000000000000000000002 0).
Proof. vm_compute. reflexivity. Qed.

Example mul_overflow :
  Dec.mul (Dec.Finite false 1 999999) (Dec.Finite false 10 0) = inl Dec.Overflow.
Proof. vm_compute. reflexivity. Qed.

Example isoformat_2023_01_01 : isoformat (mkdate 2023 1 1) = "2023-01-01".
Proof. reflexivity. Qed.

Example create_round_trip_10_50 :
  exists e w',
    create_beer_entry env_rate_1_1 test_beer empty_world = (Return (Some e), w')
    /\ eur_price e = d10_50
    /\ usd_price e = Dec.Finite false 1155 (-2)
    /\ exchange_rate e = Dec.Finite false 1100000 (-6)
    /\ rows (store w') = [e]
    /\ trace w' = [EvCommit;
                   EvRequest "https://api.exchangerate-api.com/v4/historical/EUR/2023-01-01"].
Proof. eexists. eexists. vm_compute. repeat split. Qed.

(** ** The rate client *)

Ltac unfold_monad :=
  unfold fault, notify in *;
  unfold bind, ret, raise, try_except, emit, get_store, put_store in *.

(** Case analysis on the innermost scrutinee of hypothesis [H]. *)
Ltac innermost_case H :=
  match type of H with
  | context [match ?x with _ => _ end] =>
      lazymatch x with
      | context [match _ with _ => _ end] => fail
      | _ => destruct x eqn:?; cbn [fst snd caught store trace] in H
      end
  end.

(** C5: for both currencies and every date, a rate from a currency to itself
    is exactly [Decimal("1.0")], and the world is left as it was: no request
    is sent to the provider. *)
Theorem same_currency_rate_is_one :
  forall (env : Env) (c : CurrencyEnum) (d : date) (w : World),
    get_exchange_rate env c c d w = (Return (Some Dec.one_point_zero), w).
Proof.
  intros env c d w. unfold get_exchange_rate.
  destruct c; reflexivity.
Qed.

(** The client leaves the table alone and sends at most one request. *)
Lemma get_exchange_rate_effects :
  forall env a b d w r w',
    get_exchange_rate env a b d w = (r, w') ->
    store w' = store w
    /\ (trace w' = trace w \/ exists url, trace w' = EvRequest url :: trace w).
Proof.
  intros env a b d w r w' H. unfold get_exchange_rate in H.
  destruct (CurrencyEnum_eqb a b).
  - inversion H; subst. auto.
  - unfold client_get, raise_for_status, response_json, dict_get, Decimal_of_json in H.
    unfold_monad. cbn [store trace fst snd] in H.
    repeat innermost_case H;
      inversion H; subst; cbn [store trace]; split; eauto.
Qed.

(** The four failures the client handles, each reported as [None]. *)

(** X3: when the request itself fails ([httpx.RequestError]), a lookup
    between different currencies returns [None]. *)
Lemma transport_error_gives_none :
  forall env a b d w,
    CurrencyEnum_eqb a b = false ->
    provider env (BASE_URL ++ "/" ++ value a ++ "/" ++ isoformat d) = TransportFailure ->
    fst (get_exchange_rate env a b d w) = Return None.
Proof.
  intros env a b d w Hne Hp. unfold get_exchange_rate, client_get.
  rewrite Hne. unfold_monad. cbn [store trace]. rewrite Hp. reflexivity.
Qed.

(** X4: when the provider answers with a status outside 200..299, the
    lookup returns [None], whatever the body. *)
Lemma error_status_gives_none :
  forall env a b d w status body,
    CurrencyEnum_eqb a b = false ->
    provider env (BASE_URL ++ "/" ++ value a ++ "/" ++ isoformat d) = HttpResponse status body ->
    status < 200 \/ 299 < status ->
    fst (get_exchange_rate env a b d w) = Return None.
Proof.
  intros env a b d w status body Hne Hp Hs.
  unfold get_exchange_rate, client_get, raise_for_status.
  rewrite Hne. unfold_monad. cbn [store trace]. rewrite Hp.
  assert (Hf : (200 <=? status) && (status <=? 299) = false);
    [|destruct body; cbn [fst snd]; rewrite Hf; reflexivity].
  apply andb_false_iff. destruct Hs; [left; apply Z.leb_gt | right; apply Z.leb_gt]; lia.
Qed.

(** X5: when the body of the answer is not JSON, the lookup returns
    [None], whatever the status. *)
Lemma unparsable_body_gives_none :
  forall env a b d w status,
    CurrencyEnum_eqb a b = false ->
    provider env (BASE_URL ++ "/" ++ value a ++ "/" ++ isoformat d) = HttpResponse status None ->
    fst (get_exchange_rate env a b d w) = Return None.
Proof.
  intros env a b d w status Hne Hp.
  unfold get_exchange_rate, client_get, raise_for_status, response_json.
  rewrite Hne. unfold_monad. cbn [store trace]. rewrite Hp. cbn [fst snd].
  destruct ((200 <=? status) && (status <=? 299)); reflexivity.
Qed.

(** X6: when the ["rates"] object of the answer has no member for the
    target currency, the lookup returns [None]. *)
Lemma missing_rate_gives_none :
  forall env a b d w status members rates,
    CurrencyEnum_eqb a b = false ->
    provider env (BASE_URL ++ "/" ++ value a ++ "/" ++ isoformat d)
      = HttpResponse status (Some (JObject members)) ->
    assoc "rates" members = Some (JObject rates) ->
    assoc (value b) rates = None ->
    fst (get_exchange_rate env a b d w) = Return None.
Proof.
  intros env a b d w status members rates Hne Hp Hr Hb.
  unfold get_exchange_rate, client_get, raise_for_status, response_json, dict_get.
  rewrite Hne. unfold_monad. cbn [store trace]. rewrite Hp. cbn [fst snd].
  destruct ((200 <=? status) && (status <=? 299)); [|reflexivity].
  rewrite Hr, Hb. reflexivity.
Qed.

(** C4: a response with status 200 and body [{"rates": null}] makes
    [rates.get] fail with [AttributeError], which the [except] clause does
    not list: the error leaves [get_exchange_rate], and [calculate_prices],
    which has no handler, lets it through. *)
Theorem malformed_rates_escape_the_client :
  forall (p : Decimal) (d : date) (w : World),
    fst (get_exchange_rate env_rates_null EUR USD d w) = Raise AttributeError
    /\ fst (calculate_prices env_rates_null p EUR d w) = Raise AttributeError.
Proof.
  intros p d w. split; reflexivity.
Qed.

(** ** The price calculator *)

Lemma calculate_prices_effects :
  forall env p c d w r w',
    calculate_prices env p c d w = (r, w') ->
    store w' = store w
    /\ (trace w' = trace w \/ exists url, trace w' = EvRequest url :: trace w).
Proof.
  intros env p c d w r w' H. unfold calculate_prices, Decimal_mul in H.
  destruct c; unfold bind in H.
  - destruct (get_exchange_rate env EUR USD d w) as [[[rate|]|e] w1] eqn:Hg;
      apply get_exchange_rate_effects in Hg;
      try destruct (Dec.mul p rate); unfold_monad; inversion H; subst; exact Hg.
  - destruct (get_exchange_rate env USD EUR d w) as [[[rate|]|e] w1] eqn:Hg;
      apply get_exchange_rate_effects in Hg;
      try destruct (Dec.mul p rate); unfold_monad; inversion H; subst; exact Hg.
Qed.

(** C2, as amended: when the lookup from the original currency to the other
    one yields a rate [r] and the decimal product [p * r] is defined, the
    calculator returns [p] in the original currency, [p * r] in the other
    one, and [r] as the rate used. *)
Theorem calculate_prices_with_rate :
  forall (env : Env) (p r v : Decimal) (c : CurrencyEnum) (d : date) (w w' : World),
    get_exchange_rate env c (counterpart c) d w = (Return (Some r), w') ->
    Dec.mul p r = inr v ->
    exists t,
      calculate_prices env p c d w = (Return t, w')
      /\ component c t = p
      /\ component (counterpart c) t = v
      /\ snd t = r
      /\ t = match c with EUR => (p, v, r) | USD => (v, p, r) end.
Proof.
  intros env p r v c d w w' Hg Hm.
  destruct c; cbn [counterpart] in Hg;
    unfold calculate_prices, Decimal_mul, bind; rewrite Hg, Hm;
    eexists; (split; [reflexivity|]); repeat split.
Qed.

Lemma calculate_prices_with_rate_witness :
  get_exchange_rate env_rate_1_1 EUR USD d_2023_01_01 empty_world
    = (Return (Some d1_1),
       {| store := store empty_world;
          trace := [EvRequest "https://api.exchangerate-api.com/v4/historical/EUR/2023-01-01"] |})
  /\ Dec.mul d10_50 d1_1 = inr (Dec.Finite false 11550 (-3))
  /\ exists t,
      calculate_prices env_rate_1_1 d10_50 EUR d_2023_01_01 empty_world
        = (Return t,
           {| store := store empty_world;
              trace := [EvRequest "https://api.exchangerate-api.com/v4/historical/EUR/2023-01-01"] |})
      /\ component EUR t = d10_50
      /\ component USD t = Dec.Finite false 11550 (-3)
      /\ snd t = d1_1
      /\ t = (d10_50, Dec.Finite false 11550 (-3), d1_1).
Proof.
  split; [reflexivity|]. split; [reflexivity|].
  apply (calculate_prices_with_rate env_rate_1_1 d10_50 d1_1
           (Dec.Finite false 11550 (-3)) EUR d_2023_01_01 empty_world);
    reflexivity.
Defined.

(** C2 as stated fails: with the price [Decimal("0")] and the available rate
    [Infinity], the product raises [InvalidOperation] and the calculator
    returns nothing. *)
Lemma calculate_prices_zero_by_infinity :
  fst (get_exchange_rate env_rate_infinity EUR USD d_2023_01_01 empty_world)
    = Return (Some (Dec.Infinity false))
  /\ fst (calculate_prices env_rate_infinity Dec.zero EUR d_2023_01_01 empty_world)
    = Raise (DecimalException Dec.InvalidOperation).
Proof. split; reflexivity. Qed.

(** C3: when the lookup fails, the calculator keeps the price in the
    original currency, sets the other price to [Decimal("0")] and records
    the rate [Decimal("1.0")]. *)
Theorem calculate_prices_fallback :
  forall (env : Env) (p : Decimal) (c : CurrencyEnum) (d : date) (w w' : World),
    get_exchange_rate env c (counterpart c) d w = (Return None, w') ->
    exists t,
      calculate_prices env p c d w = (Return t, w')
      /\ component c t = p
      /\ component (counterpart c) t = Dec.zero
      /\ snd t = Dec.one_point_zero.
Proof.
  intros env p c d w w' Hg.
  destruct c; cbn [counterpart] in Hg;
    unfold calculate_prices, bind; rewrite Hg;
    eexists; (split; [reflexivity|]); repeat split.
Qed.

Lemma calculate_prices_fallback_witness :
  get_exchange_rate env_unreachable USD EUR d_2023_01_01 empty_world
    = (Return None,
       {| store := store empty_world;
          trace := [EvRequest "https://api.exchangerate-api.com/v4/historical/USD/2023-01-01"] |})
  /\ exists t,
      calculate_prices env_unreachable d10_50 USD d_2023_01_01 empty_world
        = (Return t,
           {| store := store empty_world;
              trace := [EvRequest "https://api.exchangerate-api.com/v4/historical/USD/2023-01-01"] |})
      /\ component USD t = d10_50
      /\ component EUR t = Dec.zero
      /\ snd t = Dec.one_point_zero.
Proof.
  split; [reflexivity|].
  apply (calculate_prices_fallback env_unreachable d10_50 USD d_2023_01_01 empty_world).
  reflexivity.
Defined.

(** ** The repository *)

Lemma find_fresh_row :
  forall (l : list BeerEntry) (o : BeerEntry) (n : Z),
    Forall (fun e => exists i, id e = Some i /\ i < n) l ->
    id o = Some n ->
    find (has_id n) (l ++ [o]) = Some o.
Proof.
  induction l as [|a l IH]; intros o n Hall Ho.
  - cbn. unfold has_id. rewrite Ho, Z.eqb_refl. reflexivity.
  - inversion Hall as [|? ? [i [Hi Hlt]] Hrest]; subst.
    cbn. unfold has_id at 1. rewrite Hi.
    destruct (Z.eqb_spec n i); [lia|].
    apply IH; assumption.
Qed.

Lemma find_has_id :
  forall (l : list BeerEntry) (i : Z) (e : BeerEntry),
    find (has_id i) l = Some e -> In e l /\ id e = Some i.
Proof.
  intros l i e H. apply find_some in H. destruct H as [Hin Hid].
  split; [assumption|]. unfold has_id in Hid.
  destruct (id e) as [j|]; [|discriminate].
  apply Z.eqb_eq in Hid. congruence.
Qed.

Lemma find_absent :
  forall (l : list BeerEntry) (i : Z),
    (forall e, In e l -> id e <> Some i) -> find (has_id i) l = None.
Proof.
  intros l i H. destruct (find (has_id i) l) as [e|] eqn:Hf; [|reflexivity].
  apply find_has_id in Hf. destruct Hf as [Hin Hid]. elim (H e Hin Hid).
Qed.

(** Removing the rows with identifier [i] from a table without repeated
    identifiers removes the one row that carries it. *)
Lemma purge_one :
  forall (l : list BeerEntry) (i : Z) (e : BeerEntry),
    NoDup (map id l) -> In e l -> id e = Some i ->
    exists l1 l2,
      l = (l1 ++ e :: l2)%list
      /\ filter (fun r => negb (existsb (fun j => has_id j r) [i])) l = (l1 ++ l2)%list.
Proof.
  intros l i e. set (keep := fun r => negb (existsb (fun j => has_id j r) [i])).
  assert (Hkeep : forall r, keep r = negb (has_id i r)).
  { intros r. unfold keep. cbn. rewrite orb_false_r. reflexivity. }
  clearbody keep.
  induction l as [|a l IH]; intros Hnd Hin Hid; [contradiction|].
  cbn [map] in Hnd. inversion Hnd as [|? ? Hnotin Hnd']; subst.
  destruct Hin as [->|Hin].
  - exists [], l. split; [reflexivity|].
    cbn [filter app]. rewrite Hkeep. unfold has_id at 1. rewrite Hid, Z.eqb_refl. cbn [negb].
    apply forallb_filter_id. apply forallb_forall. intros r Hr.
    rewrite Hkeep. unfold has_id.
    destruct (id r) as [j|] eqn:Hj; [|reflexivity].
    destruct (Z.eqb_spec i j); [|reflexivity].
    subst j. exfalso. apply Hnotin. rewrite Hid, <- Hj. apply in_map. assumption.
  - destruct (IH Hnd' Hin Hid) as [l1 [l2 [Hl Hf]]].
    exists (a :: l1), l2. split; [cbn; congruence|].
    cbn [filter app]. rewrite Hkeep. unfold has_id at 1.
    destruct (id a) as [j|] eqn:Hj.
    + destruct (Z.eqb_spec i j).
      * subst j. exfalso. apply Hnotin. rewrite <- Hid. apply in_map. assumption.
      * cbn [negb]. rewrite Hf. reflexivity.
    + cbn [negb]. rewrite Hf. reflexivity.
Qed.

Lemma filter_all :
  forall (l : list BeerEntry), filter (fun _ => true) l = l.
Proof.
  induction l as [|a l IH]; cbn; [reflexivity | rewrite IH; reflexivity].
Qed.

(** A commit without deletions keeps every row. *)
Lemma purge_nil : forall st, purge [] st = st.
Proof.
  intros [l n]. unfold purge. cbn. rewrite filter_all. reflexivity.
Qed.

(** What a successful run of the body of [create_beer_entry] has done: the
    entry returned is the row that the table has received. *)
Lemma create_body_success :
  forall env x w e w',
    store_wf (store w) ->
    create_beer_entry_body env x w = (Return (Some e), w') ->
    exists prices w1,
      calculate_prices env (c_original_price x) (c_original_currency x)
        (c_purchase_date x) w = (Return prices, w1)
      /\ e = as_row env (next_id (store w)) (entry_of env x prices)
      /\ store w' = {| rows := (rows (store w) ++ [e])%list;
                       next_id := next_id (store w) + 1 |}
      /\ trace w' = EvCommit :: trace w1.
Proof.
  intros env x w e w' [Hfresh _] H.
  unfold create_beer_entry_body in H. unfold bind at 1 in H.
  destruct (calculate_prices env (c_original_price x) (c_original_currency x)
              (c_purchase_date x) w) as [[[[eur usd] rate]|ex] w1] eqn:Hc;
    [|discriminate].
  destruct (calculate_prices_effects _ _ _ _ _ _ _ Hc) as [Hst _].
  exists (eur, usd, rate), w1. split; [reflexivity|].
  unfold get_session, session_add, session_commit, session_refresh in H.
  unfold_monad.
  destruct (db_fault env OpOpen); [discriminate|].
  destruct (db_fault env OpAdd); [discriminate|].
  destruct (db_fault env OpCommit); [discriminate|].
  destruct (db_fault env OpRefresh); [discriminate|].
  cbn in H. rewrite Hst, purge_nil, filter_all in H.
  rewrite find_fresh_row in H by (assumption || reflexivity).
  inversion H; subst. cbn. repeat split.
Qed.

Lemma find_last_row :
  forall (l : list BeerEntry) (o : BeerEntry) (n : Z),
    id o = Some n -> exists r, find (has_id n) (l ++ [o]) = Some r.
Proof.
  induction l as [|a l IH]; intros o n Ho; cbn.
  - unfold has_id. rewrite Ho, Z.eqb_refl. eauto.
  - destruct (has_id n a); eauto.
Qed.

(** How the calculator reached a result. *)
Lemma calculate_prices_inv :
  forall env p c d w t w1,
    calculate_prices env p c d w = (Return t, w1) ->
    component c t = p
    /\ ((get_exchange_rate env c (counterpart c) d w = (Return (Some (snd t)), w1)
         /\ Dec.mul p (snd t) = inr (component (counterpart c) t))
        \/ (get_exchange_rate env c (counterpart c) d w = (Return None, w1)
            /\ component (counterpart c) t = Dec.zero
            /\ snd t = Dec.one_point_zero)).
Proof.
  intros env p c d w t w1 H.
  destruct c; cbn [counterpart]; unfold calculate_prices, Decimal_mul, bind in H.
  - destruct (get_exchange_rate env EUR USD d w) as [[[r|]|ex] w0]; [| |discriminate].
    + destruct (Dec.mul p r) as [sg|v] eqn:Hm; unfold_monad; [discriminate|].
      inversion H; subst. cbn. rewrite Hm. auto.
    + unfold_monad. inversion H; subst. cbn. auto.
  - destruct (get_exchange_rate env USD EUR d w) as [[[r|]|ex] w0]; [| |discriminate].
    + destruct (Dec.mul p r) as [sg|v] eqn:Hm; unfold_monad; [discriminate|].
      inversion H; subst. cbn. rewrite Hm. auto.
    + unfold_monad. inversion H; subst. cbn. auto.
Qed.

(** [create_beer_entry] yields an entry exactly when its body does. *)
Lemma create_some_inv :
  forall env x w e w',
    create_beer_entry env x w = (Return (Some e), w') ->
    create_beer_entry_body env x w = (Return (Some e), w').
Proof.
  intros env x w e w' H. unfold create_beer_entry, try_except in H.
  destruct (create_beer_entry_body env x w) as [[a|ex] w1]; [assumption|].
  unfold_monad. discriminate.
Qed.

(** The fallback values as the columns hold them: [Decimal("0.00")] and
    [Decimal("1.000000")], whatever the rounding of the engine. *)
Lemma fallback_in_columns :
  forall up,
    to_column up 2 Dec.zero = Dec.Finite false 0 (-2)
    /\ to_column up 6 Dec.one_point_zero = Dec.Finite false 1000000 (-6).
Proof. intros up. split; reflexivity. Qed.


(** The effects of the body of [create_beer_entry], however it ends: at most
    one request and one commit, and a table that is either untouched, the
    body then having raised, or extended by the one row made of the input,
    of the result of the calculator, of the next identifier and of the
    clock; behind such a row the body has returned, or the re-read has
    raised. *)
Lemma create_body_effects :
  forall env x w r w',
    create_beer_entry_body env x w = (r, w') ->
    (exists evs,
        trace w' = (evs ++ trace w)%list
        /\ (count is_request evs <= 1)%nat
        /\ (count is_commit evs <= 1)%nat)
    /\ ((store w' = store w /\ exists ex, r = Raise ex)
        \/ exists prices w0,
            calculate_prices env (c_original_price x) (c_original_currency x)
              (c_purchase_date x) w = (Return prices, w0)
            /\ db_fault env OpCommit = None
            /\ store w' =
               {| rows := (rows (store w)
                           ++ [as_row env (next_id (store w)) (entry_of env x prices)])%list;
                  next_id := next_id (store w) + 1 |}
            /\ ((exists a, r = Return a)
                \/ (exists ex, r = Raise ex /\ db_fault env OpRefresh = Some ex)))
    /\ (db_fault env OpRefresh = None -> forall ex, r = Raise ex -> store w' = store w).
Proof.
  intros env x w r w' H.
  unfold create_beer_entry_body in H. unfold bind at 1 in H.
  destruct (calculate_prices env (c_original_price x) (c_original_currency x)
              (c_purchase_date x) w) as [[[[eur usd] rate]|ex] w1] eqn:Hc;
    destruct (calculate_prices_effects _ _ _ _ _ _ _ Hc) as [Hst Htr].
  - unfold get_session, session_add, session_commit, session_refresh in H.
    unfold_monad.
    destruct (db_fault env OpOpen) eqn:Hopen;
      [|destruct (db_fault env OpAdd) eqn:Hadd;
        [|destruct (db_fault env OpCommit) eqn:Hcommit;
          [|destruct (db_fault env OpRefresh) eqn:Hrefresh]]];
      cbn in H; rewrite ?purge_nil, ?filter_all, ?Hst in H.
    all: try (destruct (find_last_row (rows (store w))
                    (as_row env (next_id (store w)) (entry_of env x (eur, usd, rate)))
                    (next_id (store w)) eq_refl) as [row Hrow];
              cbv [entry_of fst snd] in Hrow; rewrite Hrow in H).
    all: inversion H; subst; cbn [store trace];
      (split;
       [destruct Htr as [Ht|[url Ht]]; rewrite Ht;
        first [exists []; split; [reflexivity|cbn; lia]
              |exists [EvRequest url]; split; [reflexivity|cbn; lia]
              |exists [EvCommit]; split; [reflexivity|cbn; lia]
              |exists [EvCommit; EvRequest url]; split; [reflexivity|cbn; lia]]
       |split;
        [first [left; split; [congruence | eexists; reflexivity]
               |right; exists (eur, usd, rate), w1;
                split; [reflexivity|]; split; [reflexivity|];
                split; [reflexivity|];
                first [left; eexists; reflexivity
                      |right; eexists; split; reflexivity]]
        |intros Hr ex0 Hex; first [congruence|discriminate]]]).
  - unfold_monad. inversion H; subst.
    split; [|split; [left; split; [assumption | eexists; reflexivity]
                    |intros; assumption]].
    destruct Htr as [Ht|[url Ht]]; rewrite Ht;
      [exists []|exists [EvRequest url]]; (split; [reflexivity|cbn; lia]).
Qed.

(** The prices of the row made of the result of the calculator. *)
Lemma row_prices :
  forall env x w prices w1 i,
    calculate_prices env (c_original_price x) (c_original_currency x)
      (c_purchase_date x) w = (Return prices, w1) ->
    let e := as_row env i (entry_of env x prices) in
    let c := original_currency e in
    let column := to_column (rounds_up env) in
    original_price e = column 2 (c_original_price x)
    /\ price_in c e = original_price e
    /\ ((exists rate v w1,
           get_exchange_rate env c (counterpart c) (purchase_date e) w
             = (Return (Some rate), w1)
           /\ Dec.mul (c_original_price x) rate = inr v
           /\ price_in (counterpart c) e = column 2 v
           /\ exchange_rate e = column 6 rate)
        \/ (exists w1,
           get_exchange_rate env c (counterpart c) (purchase_date e) w
             = (Return None, w1)
           /\ price_in (counterpart c) e = Dec.Finite false 0 (-2)
           /\ exchange_rate e = Dec.Finite false 1000000 (-6))).
Proof.
  intros env x w [[eur usd] rate] w1 i Hc.
  apply calculate_prices_inv in Hc. destruct Hc as [Hown Hother].
  cbn [as_row entry_of original_currency original_price purchase_date exchange_rate
       fst snd].
  split; [reflexivity|].
  destruct (fallback_in_columns (rounds_up env)) as [Hz Ho].
  destruct (c_original_currency x); cbn [price_in counterpart component
    eur_price usd_price fst snd] in *.
  - split; [rewrite Hown; reflexivity|].
    destruct Hother as [[Hg Hm]|[Hg [Hzero Hone]]].
    + left. exists rate, usd, w1. auto.
    + right. exists w1. rewrite Hzero, Hone. auto.
  - split; [rewrite Hown; reflexivity|].
    destruct Hother as [[Hg Hm]|[Hg [Hzero Hone]]].
    + left. exists rate, eur, w1. auto.
    + right. exists w1. rewrite Hzero, Hone. auto.
Qed.

(** ** The entry service: creation *)

(** C1, as amended: [create_beer_entry] leaves the table as it was, and
    then returns [None], or adds exactly one row, which it returns, or
    leaves behind a [None] when the re-read raised.  In that row the price
    in the original currency is [original_price] itself, both being the
    input price at the two fractional digits of their columns; the price in
    the other currency is the product of the input price and the rate looked
    up, at two fractional digits, and [exchange_rate] is that rate at six;
    or, when the lookup failed, they are [Decimal("0.00")] and
    [Decimal("1.000000")]. *)
Theorem created_entry_prices :
  forall (env : Env) (x : BeerEntryCreate) (w : World)
         (r : Result (option BeerEntry)) (w' : World),
    store_wf (store w) ->
    create_beer_entry env x w = (r, w') ->
    (store w' = store w /\ r = Return None)
    \/ exists e,
        store w' = {| rows := (rows (store w) ++ [e])%list;
                      next_id := next_id (store w) + 1 |}
        /\ (r = Return (Some e) \/ r = Return None)
        /\ let c := original_currency e in
           let column := to_column (rounds_up env) in
           original_price e = column 2 (c_original_price x)
           /\ price_in c e = original_price e
           /\ ((exists rate v w1,
                  get_exchange_rate env c (counterpart c) (purchase_date e) w
                    = (Return (Some rate), w1)
                  /\ Dec.mul (c_original_price x) rate = inr v
                  /\ price_in (counterpart c) e = column 2 v
                  /\ exchange_rate e = column 6 rate)
               \/ (exists w1,
                  get_exchange_rate env c (counterpart c) (purchase_date e) w
                    = (Return None, w1)
                  /\ price_in (counterpart c) e = Dec.Finite false 0 (-2)
                  /\ exchange_rate e = Dec.Finite false 1000000 (-6))).
Proof.
  intros env x w r w' Hwf H.
  unfold create_beer_entry, try_except in H.
  destruct (create_beer_entry_body env x w) as [[a|ex] w1] eqn:Hb.
  - inversion H; subst r w1. clear H.
    destruct (create_body_effects _ _ _ _ _ Hb) as [_ [[[_ [ex Hex]]|Hrow] _]];
      [discriminate|].
    destruct Hrow as [prices [w0 [Hc [_ [Hst _]]]]].
    destruct a as [e|].
    + destruct (create_body_success _ _ _ _ _ Hwf Hb)
        as [prices' [w0' [Hc' [He _]]]].
      rewrite Hc in Hc'. inversion Hc'; subst prices' w0'.
      right. exists e. rewrite He at 1. split; [exact Hst|].
      split; [left; reflexivity|]. rewrite He. exact (row_prices _ _ _ _ _ _ Hc).
    + exfalso. unfold create_beer_entry_body in Hb. unfold bind at 1 in Hb.
      rewrite Hc in Hb. destruct prices as [[eur usd] rate].
      unfold get_session, session_add, session_commit, session_refresh in Hb.
      unfold_monad. cbn in Hb.
      repeat innermost_case Hb; discriminate.
  - unfold_monad. inversion H; subst r w'. clear H. cbn [store].
    destruct (create_body_effects _ _ _ _ _ Hb) as [_ [[[Hs _]|Hrow] _]];
      [left; split; [exact Hs | reflexivity]|].
    destruct Hrow as [prices [w0 [Hc [_ [Hst _]]]]].
    right. eexists. split; [exact Hst|]. split; [right; reflexivity|].
    exact (row_prices _ _ _ _ _ _ Hc).
Qed.

Lemma empty_world_wf : store_wf (store empty_world).
Proof. split; constructor. Qed.

(** A beer at 10.55 euros. *)
Lemma created_entry_prices_witness :
  exists e w',
    create_beer_entry env_rate_1_1 beer_10_55 empty_world = (Return (Some e), w')
    /\ rows (store w') = [e]
    /\ eur_price e = original_price e
    /\ usd_price e = Dec.Finite false 1161 (-2)
    /\ exchange_rate e = Dec.Finite false 1100000 (-6).
Proof.
  eexists. eexists. split; [reflexivity|].
  destruct (created_entry_prices env_rate_1_1 beer_10_55 empty_world _ _
              empty_world_wf eq_refl) as [[Hs _]|[e [Hst [Hr [_ [Hown _]]]]]].
  - discriminate Hs.
  - destruct Hr as [Hr|Hr]; [|discriminate Hr].
    inversion Hr; subst e. clear Hr.
    split; [reflexivity|]. split; [exact Hown|]. split; reflexivity.
Defined.

(** C1 as stated fails on both counts.  At the rate [Decimal("1")] the
    created entry has [eur_price] and [usd_price] both equal to
    [original_price], not exactly one of them.  And for 10.55 euros at the
    rate 1.1 the row holds 11.61 dollars and the rate 1.100000, whereas the
    product of its [original_price] and its [exchange_rate] is
    11.60500000. *)
Lemma persisted_prices_break_the_stated_invariant :
  (exists e w',
      create_beer_entry env_rate_1 test_beer empty_world = (Return (Some e), w')
      /\ In e (rows (store w'))
      /\ eur_price e = original_price e
      /\ usd_price e = original_price e)
  /\ (exists e w',
      create_beer_entry env_rate_1_1 beer_10_55 empty_world = (Return (Some e), w')
      /\ In e (rows (store w'))
      /\ usd_price e = Dec.Finite false 1161 (-2)
      /\ Dec.mul (original_price e) (exchange_rate e)
         = inr (Dec.Finite false 1160500000 (-8))
      /\ Dec.Finite false 1160500000 (-8) <> usd_price e).
Proof.
  split.
  - eexists. eexists. split; [reflexivity|].
    split; [left; reflexivity|]. split; reflexivity.
  - eexists. eexists. split; [reflexivity|].
    split; [left; reflexivity|]. split; [reflexivity|].
    split; [reflexivity|]. discriminate.
Qed.

(** C6, as amended: when the body of [create_beer_entry] raises, whether in
    the calculator or in the store, the caller receives [None]; at most one
    request and one commit were issued; the table is unchanged unless the
    commit had succeeded and the re-read that follows it raised, in which
    case the table has gained exactly the complete record: the row made of
    the input, of the prices and the rate that the calculator returned, of
    the next identifier and of the clock, never a part of it. *)
Theorem create_failure :
  forall (env : Env) (x : BeerEntryCreate) (w : World) (ex : Exn) (w1 : World),
    create_beer_entry_body env x w = (Raise ex, w1) ->
    exists w',
      create_beer_entry env x w = (Return None, w')
      /\ (db_fault env OpRefresh = None -> store w' = store w)
      /\ (store w' = store w
          \/ exists prices w0,
              calculate_prices env (c_original_price x) (c_original_currency x)
                (c_purchase_date x) w = (Return prices, w0)
              /\ db_fault env OpCommit = None
              /\ db_fault env OpRefresh = Some ex
              /\ store w' =
                 {| rows := (rows (store w)
                             ++ [as_row env (next_id (store w)) (entry_of env x prices)])%list;
                    next_id := next_id (store w) + 1 |})
      /\ exists evs,
          trace w' = (evs ++ trace w)%list
          /\ (count is_request evs <= 1)%nat
          /\ (count is_commit evs <= 1)%nat.
Proof.
  intros env x w ex w1 H.
  destruct (create_body_effects _ _ _ _ _ H) as [[evs [Ht [Hr Hc]]] [Hst Hun]].
  exists {| store := store w1;
            trace := EvNotify "Error creating beer entry: " ex :: trace w1 |}.
  split.
  - unfold create_beer_entry, try_except. rewrite H. reflexivity.
  - cbn [store trace]. split; [intros Hn; apply (Hun Hn ex); reflexivity|].
    split.
    + destruct Hst as [[Hs _]|[prices [w0 [Hcalc [Hcommit [Hs Hend]]]]]];
        [left; exact Hs|].
      right. exists prices, w0. split; [exact Hcalc|]. split; [exact Hcommit|].
      split; [|exact Hs].
      destruct Hend as [[a Ha]|[ex' [Hex Hf]]]; [discriminate Ha|].
      inversion Hex; subst ex'. exact Hf.
    + exists (EvNotify "Error creating beer entry: " ex :: evs).
      rewrite Ht. split; [reflexivity|]. cbn. auto.
Qed.

Lemma create_failure_witness :
  create_beer_entry_body env_commit_fails test_beer empty_world
    = (Raise DatabaseError,
       {| store := store empty_world;
          trace := [EvCommit;
                    EvRequest "https://api.exchangerate-api.com/v4/historical/EUR/2023-01-01"] |})
  /\ exists w',
      create_beer_entry env_commit_fails test_beer empty_world = (Return None, w')
      /\ store w' = store empty_world.
Proof.
  split; [reflexivity|].
  destruct (create_failure env_commit_fails test_beer empty_world DatabaseError _ eq_refl)
    as [w' [Hc [Hun _]]].
  exists w'. split; [exact Hc|]. apply Hun. reflexivity.
Defined.

(** C6 as stated fails: when [session.refresh] raises after the commit,
    [create_beer_entry] returns [None] although the table, empty before, now
    holds the new row. *)
Lemma create_fails_after_commit :
  fst (create_beer_entry env_refresh_fails test_beer empty_world) = Return None
  /\ rows (store empty_world) = []
  /\ rows (store (snd (create_beer_entry env_refresh_fails test_beer empty_world)))
     = [{| id := Some 1;
           beer_name := "Test Beer";
           original_price := d10_50;
           original_currency := EUR;
           purchase_date := d_2023_01_01;
           eur_price := d10_50;
           usd_price := Dec.Finite false 1155 (-2);
           exchange_rate := Dec.Finite false 1100000 (-6);
           created_at := 1672531200000000 |}].
Proof. repeat split. Qed.

(** ** The entry service: deletion *)

Lemma find_present :
  forall (l : list BeerEntry) (i : Z) (e : BeerEntry),
    In e l -> id e = Some i -> exists e', find (has_id i) l = Some e'.
Proof.
  induction l as [|a l IH]; intros i e Hin Hid; [contradiction|].
  cbn. destruct (has_id i a) eqn:Ha; [eauto|].
  destruct Hin as [->|Hin]; [|eauto].
  unfold has_id in Ha. rewrite Hid, Z.eqb_refl in Ha. discriminate.
Qed.

(** C7: on a store that raises nowhere, deleting an identifier that no row
    carries returns [False] and changes nothing; deleting the identifier of
    a row returns [True] and the table afterwards is the table before
    without that row, the other rows as they were and in their order. *)
Theorem delete_removes_exactly_that_entry :
  forall (env : Env) (i : Z) (w : World),
    (forall op, db_fault env op = None) ->
    store_wf (store w) ->
    ((forall e, In e (rows (store w)) -> id e <> Some i) ->
       delete_beer_entry env i w = (Return false, w))
    /\ (forall e, In e (rows (store w)) -> id e = Some i ->
         exists l1 l2 w',
           delete_beer_entry env i w = (Return true, w')
           /\ rows (store w) = (l1 ++ e :: l2)%list
           /\ rows (store w') = (l1 ++ l2)%list
           /\ next_id (store w') = next_id (store w)).
Proof.
  intros env i w Hok [_ Hnd].
  unfold delete_beer_entry, delete_beer_entry_body,
    get_session, session_get, session_delete, session_commit.
  rewrite ?Hok. unfold_monad. rewrite ?Hok. cbn [store trace]. split.
  - intros Habs. rewrite (find_absent _ _ Habs). destruct w; reflexivity.
  - intros e Hin Hid.
    destruct (find_present _ _ _ Hin Hid) as [e' He']. rewrite He'.
    destruct (find_has_id _ _ _ He') as [_ Hid']. rewrite Hid'. cbn.
    destruct (purge_one _ _ _ Hnd Hin Hid) as [l1 [l2 [Hl Hf]]].
    exists l1, l2. eexists. split; [reflexivity|].
    cbn [store rows next_id purge]. auto.
Qed.

Lemma two_beers_wf : store_wf (store two_beers).
Proof.
  split.
  - repeat constructor; cbn; eexists; (split; [reflexivity|lia]).
  - cbn. repeat constructor; cbn; intuition discriminate.
Qed.

Lemma delete_removes_exactly_that_entry_witness :
  delete_beer_entry env_rate_1_1 999 two_beers = (Return false, two_beers)
  /\ exists l1 l2 w',
      delete_beer_entry env_rate_1_1 1 two_beers = (Return true, w')
      /\ rows (store two_beers) = (l1 ++ beer_one :: l2)%list
      /\ rows (store w') = (l1 ++ l2)%list
      /\ next_id (store w') = next_id (store two_beers).
Proof.
  split.
  - apply (delete_removes_exactly_that_entry env_rate_1_1 999 two_beers
             (fun op => eq_refl) two_beers_wf).
    cbn. intros e [<-|[<-|[]]]; discriminate.
  - apply (delete_removes_exactly_that_entry env_rate_1_1 1 two_beers
             (fun op => eq_refl) two_beers_wf).
    + left. reflexivity.
    + reflexivity.
Defined.

(** C10: [delete_beer_entry] always returns a boolean, and whenever its body
    raises, which only the calls on the session can make it do, at the
    lookup, at the removal or at the commit, the boolean is [False], the
    value it also returns for an identifier that no row carries. *)
Theorem delete_never_raises :
  forall (env : Env) (i : Z) (w : World),
    (exists b w', delete_beer_entry env i w = (Return b, w'))
    /\ (forall ex w1,
          delete_beer_entry_body env i w = (Raise ex, w1) ->
          fst (delete_beer_entry env i w) = Return false)
    /\ (forall ex e,
          db_fault env OpOpen = Some ex
          \/ db_fault env OpGet = Some ex
          \/ (find (has_id i) (rows (store w)) = Some e
              /\ (db_fault env OpDelete = Some ex \/ db_fault env OpCommit = Some ex)) ->
          fst (delete_beer_entry env i w) = Return false)
    /\ (db_fault env OpOpen = None -> db_fault env OpGet = None ->
        find (has_id i) (rows (store w)) = None ->
        fst (delete_beer_entry env i w) = Return false).
Proof.
  intros env i w.
  unfold delete_beer_entry, delete_beer_entry_body,
    get_session, session_get, session_delete, session_commit.
  unfold_monad. repeat split.
  - destruct (db_fault env OpOpen); cbn; eauto.
    destruct (db_fault env OpGet); cbn; eauto.
    destruct (find (has_id i) (rows (store w))); cbn; eauto.
    destruct (db_fault env OpDelete); cbn; eauto.
    destruct (db_fault env OpCommit); cbn; eauto.
  - intros ex w1.
    destruct (db_fault env OpOpen); cbn; auto.
    destruct (db_fault env OpGet); cbn; auto.
    destruct (find (has_id i) (rows (store w))); cbn; [|discriminate].
    destruct (db_fault env OpDelete); cbn; auto.
    destruct (db_fault env OpCommit); cbn; auto.
    discriminate.
  - intros ex e [Ho|[Hg|[Hf [Hd|Hc]]]].
    + rewrite Ho. reflexivity.
    + destruct (db_fault env OpOpen); [reflexivity|]. rewrite Hg. reflexivity.
    + destruct (db_fault env OpOpen); [reflexivity|].
      destruct (db_fault env OpGet); [reflexivity|].
      rewrite Hf, Hd. reflexivity.
    + destruct (db_fault env OpOpen); [reflexivity|].
      destruct (db_fault env OpGet); [reflexivity|].
      rewrite Hf. destruct (db_fault env OpDelete); [reflexivity|].
      rewrite Hc. reflexivity.
  - intros Ho Hg Hf. rewrite Ho, Hg, Hf. reflexivity.
Qed.

(** The commit of a deletion raises, as does the lookup in a second world;
    in both [delete_beer_entry] answers as it does for the unknown
    identifier 999. *)
Lemma delete_never_raises_witness :
  delete_beer_entry_body env_commit_fails 1 two_beers
    = (Raise DatabaseError,
       {| store := store two_beers; trace := [EvCommit] |})
  /\ fst (delete_beer_entry env_commit_fails 1 two_beers) = Return false
  /\ fst (delete_beer_entry env_rate_1_1 999 two_beers) = Return false.
Proof.
  split; [reflexivity|]. split.
  - apply (proj1 (proj2 (delete_never_raises env_commit_fails 1 two_beers))
             DatabaseError {| store := store two_beers; trace := [EvCommit] |}).
    reflexivity.
  - apply (proj2 (proj2 (proj2 (delete_never_raises env_rate_1_1 999 two_beers))));
      reflexivity.
Defined.

(** ** The entry service: listing and the life of an entry *)

Lemma list_returns_rows :
  forall env w,
    (forall op, db_fault env op = None) ->
    get_all_beer_entries env w = (Return (rows (store w)), w).
Proof.
  intros env w Hok. unfold get_all_beer_entries, get_session, session_exec_select.
  rewrite ?Hok. unfold_monad. rewrite ?Hok. reflexivity.
Qed.

(** C8, as amended: an entry returned by [create_beer_entry] carries the
    name, the currency and the date of the input, its price at the two
    fractional digits of the column, the prices that [calculate_prices]
    computed at two fractional digits and the rate at six; a listing before
    the creation returns the rows of the table in their order, a listing
    after it returns the same rows followed by the new entry, and with no
    prior row exactly the new entry. *)
Theorem create_then_list :
  forall (env env2 : Env) (x : BeerEntryCreate) (w : World) (e : BeerEntry) (w' : World),
    store_wf (store w) ->
    (forall op, db_fault env2 op = None) ->
    create_beer_entry env x w = (Return (Some e), w') ->
    (exists eur usd rate w1,
        calculate_prices env (c_original_price x) (c_original_currency x)
          (c_purchase_date x) w = (Return (eur, usd, rate), w1)
        /\ beer_name e = c_beer_name x
        /\ original_price e = to_column (rounds_up env) 2 (c_original_price x)
        /\ original_currency e = c_original_currency x
        /\ purchase_date e = c_purchase_date x
        /\ eur_price e = to_column (rounds_up env) 2 eur
        /\ usd_price e = to_column (rounds_up env) 2 usd
        /\ exchange_rate e = to_column (rounds_up env) 6 rate)
    /\ get_all_beer_entries env2 w = (Return (rows (store w)), w)
    /\ get_all_beer_entries env2 w' = (Return (rows (store w) ++ [e])%list, w')
    /\ (rows (store w) = [] -> get_all_beer_entries env2 w' = (Return [e], w')).
Proof.
  intros env env2 x w e w' Hwf Hok H. apply create_some_inv in H.
  destruct (create_body_success _ _ _ _ _ Hwf H)
    as [[[eur usd] rate] [w1 [Hc [He [Hst _]]]]].
  split.
  - exists eur, usd, rate, w1. subst e. cbn. repeat split. exact Hc.
  - split; [apply list_returns_rows; exact Hok|].
    assert (Hl : get_all_beer_entries env2 w' = (Return (rows (store w) ++ [e])%list, w')).
    { rewrite (list_returns_rows env2 w' Hok), Hst. reflexivity. }
    split; [exact Hl|]. intros Hempty. rewrite Hl, Hempty. reflexivity.
Qed.

Lemma create_then_list_witness :
  exists e w',
    create_beer_entry env_rate_1_1 beer_three two_beers = (Return (Some e), w')
    /\ usd_price e = Dec.Finite false 1155 (-2)
    /\ get_all_beer_entries env_rate_1_1 two_beers = (Return [beer_one; beer_two], two_beers)
    /\ get_all_beer_entries env_rate_1_1 w' = (Return [beer_one; beer_two; e], w').
Proof.
  eexists. eexists. split; [reflexivity|]. split; [reflexivity|].
  destruct (create_then_list env_rate_1_1 env_rate_1_1 beer_three two_beers _ _
              two_beers_wf (fun op => eq_refl) eq_refl) as [_ [Hbefore [Hafter _]]].
  split; [exact Hbefore | exact Hafter].
Defined.

(** C8 as stated fails: a beer of 10.55 euros is created in an empty table
    at the rate 1.1.  The calculator computes 11.605 dollars; the one entry
    that the listing then returns holds 11.61 dollars. *)
Lemma listed_price_is_not_the_computed_price :
  exists e w',
    rows (store empty_world) = []
    /\ create_beer_entry env_rate_1_1 beer_10_55 empty_world = (Return (Some e), w')
    /\ fst (get_all_beer_entries env_rate_1_1 w') = Return [e]
    /\ fst (calculate_prices env_rate_1_1 (c_original_price beer_10_55)
              (c_original_currency beer_10_55) (c_purchase_date beer_10_55) empty_world)
       = Return (Dec.Finite false 1055 (-2), Dec.Finite false 11605 (-3),
                 Dec.Finite false 11 (-1))
    /\ usd_price e = Dec.Finite false 1161 (-2)
    /\ usd_price e <> Dec.Finite false 11605 (-3).
Proof.
  eexists. eexists. split; [reflexivity|]. split; [reflexivity|].
  split; [reflexivity|]. split; [reflexivity|]. split; [reflexivity|].
  discriminate.
Qed.

(** Every call of the service leaves the table as it was, appends one row
    that carries the next identifier, or removes the rows of one
    identifier. *)
Lemma run_store_cases :
  forall c w,
    store (run c w) = store w
    \/ (exists n,
          id n = Some (next_id (store w))
          /\ store (run c w) = {| rows := (rows (store w) ++ [n])%list;
                                  next_id := next_id (store w) + 1 |})
    \/ (exists j, store (run c w) = purge [j] (store w)).
Proof.
  intros [env x|env|env i] w; cbn [run].
  - unfold create_beer_entry, try_except.
    destruct (create_beer_entry_body env x w) as [[a|ex] w1] eqn:Hb;
      destruct (create_body_effects _ _ _ _ _ Hb) as [_ [[[Hs _]|[prices [w0 [_ [_ [Hs _]]]]]] _]];
      unfold_monad; cbn [snd store]; rewrite Hs; auto;
      right; left; eexists; (split; [|reflexivity]); reflexivity.
  - left. unfold get_all_beer_entries, get_session, session_exec_select.
    unfold_monad.
    destruct (db_fault env OpOpen); [reflexivity|].
    destruct (db_fault env OpExec); reflexivity.
  - unfold delete_beer_entry, delete_beer_entry_body,
      get_session, session_get, session_delete, session_commit.
    unfold_monad.
    destruct (db_fault env OpOpen); [left; reflexivity|].
    destruct (db_fault env OpGet); [left; reflexivity|].
    cbn [store trace].
    destruct (find (has_id i) (rows (store w))) as [entry|]; [|left; reflexivity].
    destruct (db_fault env OpDelete); [left; reflexivity|].
    destruct (db_fault env OpCommit); [left; reflexivity|].
    cbn. destruct (id entry) as [j|].
    + right. right. exists j. reflexivity.
    + left. apply purge_nil.
Qed.

Lemma NoDup_map_filter :
  forall (p : BeerEntry -> bool) (l : list BeerEntry),
    NoDup (map id l) -> NoDup (map id (filter p l)).
Proof.
  induction l as [|a l IH]; intros Hnd; [exact Hnd|].
  cbn [map] in Hnd. inversion Hnd as [|? ? Hnotin Hnd']; subst.
  cbn [filter]. destruct (p a); [|auto].
  cbn [map]. constructor; [|auto].
  intros Hin. apply Hnotin. apply in_map_iff in Hin.
  destruct Hin as [r [Hr Hin]]. apply filter_In in Hin.
  rewrite <- Hr. apply in_map. tauto.
Qed.





(** ** More on the rate client *)

(** A lookup between different currencies sends its one request however the
    provider answers. *)
Lemma lookup_world :
  forall env a b d w r w',
    CurrencyEnum_eqb a b = false ->
    get_exchange_rate env a b d w = (r, w') ->
    store w' = store w /\ trace w' = EvRequest (rate_url a d) :: trace w.
Proof.
  intros env a b d w r w' Hne H. unfold get_exchange_rate in H. rewrite Hne in H.
  unfold client_get, raise_for_status, response_json, dict_get, Decimal_of_json in H.
  fold (rate_url a d) in H.
  unfold_monad. cbn [store trace fst snd] in H.
  repeat innermost_case H; inversion H; subst; cbn [store trace]; split; reflexivity.
Qed.

Lemma CurrencyEnum_eqb_neq :
  forall a b, a <> b -> CurrencyEnum_eqb a b = false.
Proof. intros [] [] H; try reflexivity; elim H; reflexivity. Qed.

Lemma CurrencyEnum_eqb_counterpart :
  forall c, CurrencyEnum_eqb c (counterpart c) = false.
Proof. intros []; reflexivity. Qed.

(** X1: a lookup between two different currencies sends exactly one GET
    request, to [BASE_URL/<from>/<ISO date>], whatever the provider answers
    and whatever the lookup returns or raises; the table is not touched. *)
Theorem lookup_sends_one_request :
  forall (env : Env) (a b : CurrencyEnum) (d : date) (w : World),
    a <> b ->
    trace (snd (get_exchange_rate env a b d w)) = EvRequest (rate_url a d) :: trace w
    /\ store (snd (get_exchange_rate env a b d w)) = store w.
Proof.
  intros env a b d w Hne.
  destruct (get_exchange_rate env a b d w) as [r w'] eqn:H.
  destruct (lookup_world _ _ _ _ _ _ _ (CurrencyEnum_eqb_neq _ _ Hne) H) as [Hs Ht].
  cbn [snd]. split; assumption.
Qed.

Lemma lookup_sends_one_request_witness :
  trace (snd (get_exchange_rate env_unreachable USD EUR d_2023_01_01 empty_world))
    = [EvRequest "https://api.exchangerate-api.com/v4/historical/USD/2023-01-01"]
  /\ store (snd (get_exchange_rate env_unreachable USD EUR d_2023_01_01 empty_world))
     = store empty_world.
Proof.
  apply (lookup_sends_one_request env_unreachable USD EUR d_2023_01_01 empty_world).
  discriminate.
Defined.

(** X2: when the provider answers with a success status and a JSON object
    whose ["rates"] member is an object that gives the target currency a
    number, or a string that [Decimal] accepts, the lookup returns that
    decimal. *)
Theorem quoted_rate_is_returned :
  forall (env : Env) (a b : CurrencyEnum) (d : date) (w : World)
         (status : Z) (members rates : list (string * json)) (v : json) (r : Decimal),
    a <> b ->
    provider env (rate_url a d) = HttpResponse status (Some (JObject members)) ->
    200 <= status <= 299 ->
    assoc "rates" members = Some (JObject rates) ->
    assoc (value b) rates = Some v ->
    v = JNumber r \/ v = JString (Some r) ->
    fst (get_exchange_rate env a b d w) = Return (Some r).
Proof.
  intros env a b d w status members rates v r Hne Hp Hs Hr Hb Hv.
  unfold get_exchange_rate, client_get, raise_for_status, response_json, dict_get,
    Decimal_of_json.
  rewrite (CurrencyEnum_eqb_neq _ _ Hne). fold (rate_url a d).
  unfold_monad. cbn [store trace]. rewrite Hp. cbn [fst snd].
  replace ((200 <=? status) && (status <=? 299)) with true
    by (symmetry; apply andb_true_iff; split; apply Z.leb_le; lia).
  rewrite Hr, Hb. destruct Hv as [-> | ->]; reflexivity.
Qed.

Lemma quoted_rate_is_returned_witness :
  fst (get_exchange_rate env_rate_1_1 USD EUR d_2023_01_01 empty_world)
    = Return (Some (Dec.Finite false 9 (-1))).
Proof.
  apply (quoted_rate_is_returned env_rate_1_1 USD EUR d_2023_01_01 empty_world 200
           [("rates", JObject [("USD", JNumber d1_1); ("EUR", JNumber (Dec.Finite false 9 (-1)))])]
           [("USD", JNumber d1_1); ("EUR", JNumber (Dec.Finite false 9 (-1)))]
           (JNumber (Dec.Finite false 9 (-1))) (Dec.Finite false 9 (-1)));
    try reflexivity; try discriminate; try lia.
  left. reflexivity.
Defined.

Lemma transport_error_gives_none_witness :
  fst (get_exchange_rate env_unreachable EUR USD d_2023_01_01 empty_world) = Return None.
Proof.
  apply (transport_error_gives_none env_unreachable EUR USD d_2023_01_01 empty_world);
    reflexivity.
Defined.

Lemma error_status_gives_none_witness :
  fst (get_exchange_rate env_status_500 EUR USD d_2023_01_01 empty_world) = Return None.
Proof.
  apply (error_status_gives_none env_status_500 EUR USD d_2023_01_01 empty_world 500 None);
    [reflexivity | reflexivity | right; lia].
Defined.

Lemma unparsable_body_gives_none_witness :
  fst (get_exchange_rate (answering None) EUR USD d_2023_01_01 empty_world) = Return None.
Proof.
  apply (unparsable_body_gives_none (answering None) EUR USD d_2023_01_01 empty_world 200);
    reflexivity.
Defined.

Lemma missing_rate_gives_none_witness :
  fst (get_exchange_rate
         (answering (Some (JObject [("rates", JObject [("GBP", JNumber d1_1)])])))
         EUR USD d_2023_01_01 empty_world) = Return None.
Proof.
  apply (missing_rate_gives_none
           (answering (Some (JObject [("rates", JObject [("GBP", JNumber d1_1)])])))
           EUR USD d_2023_01_01 empty_world 200
           [("rates", JObject [("GBP", JNumber d1_1)])] [("GBP", JNumber d1_1)]);
    reflexivity.
Defined.

(** X7: a body that is a JSON object without a ["rates"] member, for which
    the code falls back on an empty dict, and a target rate that is [null]
    both make the lookup return [None]. *)
Theorem absent_rates_or_null_rate_gives_none :
  forall (env : Env) (a b : CurrencyEnum) (d : date) (w : World)
         (status : Z) (members : list (string * json)),
    a <> b ->
    provider env (rate_url a d) = HttpResponse status (Some (JObject members)) ->
    assoc "rates" members = None
    \/ (exists rates,
          assoc "rates" members = Some (JObject rates)
          /\ assoc (value b) rates = Some JNull) ->
    fst (get_exchange_rate env a b d w) = Return None.
Proof.
  intros env a b d w status members Hne Hp Hcase.
  unfold get_exchange_rate, client_get, raise_for_status, response_json, dict_get.
  rewrite (CurrencyEnum_eqb_neq _ _ Hne). fold (rate_url a d).
  unfold_monad. cbn [store trace]. rewrite Hp. cbn [fst snd].
  destruct ((200 <=? status) && (status <=? 299)); [|reflexivity].
  destruct Hcase as [Hr | [rates [Hr Hb]]].
  - rewrite Hr. cbn. destruct b; reflexivity.
  - rewrite Hr, Hb. reflexivity.
Qed.

Lemma absent_rates_or_null_rate_gives_none_witness :
  fst (get_exchange_rate (answering (Some (JObject [("error", JBool true)])))
         EUR USD d_2023_01_01 empty_world) = Return None
  /\ fst (get_exchange_rate env_rate_infinity USD EUR d_2023_01_01 empty_world)
     = Return None.
Proof.
  split.
  - apply (absent_rates_or_null_rate_gives_none
             (answering (Some (JObject [("error", JBool true)])))
             EUR USD d_2023_01_01 empty_world 200 [("error", JBool true)]);
      [discriminate | reflexivity | left; reflexivity].
  - apply (absent_rates_or_null_rate_gives_none env_rate_infinity
             USD EUR d_2023_01_01 empty_world 200
             [("rates", JObject [("USD", JNumber (Dec.Infinity false)); ("EUR", JNull)])]);
      [discriminate | reflexivity |].
    right. eexists. split; reflexivity.
Defined.

(** ** More on the price calculator *)

Lemma calculate_prices_world :
  forall env p c d w r w',
    calculate_prices env p c d w = (r, w') ->
    store w' = store w /\ trace w' = EvRequest (rate_url c d) :: trace w.
Proof.
  intros env p c d w r w' H. unfold calculate_prices, Decimal_mul in H.
  destruct c; unfold bind in H.
  - destruct (get_exchange_rate env EUR USD d w) as [[[rate|]|e] w1] eqn:Hg;
      apply lookup_world in Hg; try reflexivity;
      try destruct (Dec.mul p rate); unfold_monad; inversion H; subst; exact Hg.
  - destruct (get_exchange_rate env USD EUR d w) as [[[rate|]|e] w1] eqn:Hg;
      apply lookup_world in Hg; try reflexivity;
      try destruct (Dec.mul p rate); unfold_monad; inversion H; subst; exact Hg.
Qed.

(** X9: whatever the price, the currency, the provider's answer and the
    outcome, [calculate_prices] sends exactly one request, for the original
    currency on the purchase date, and does not touch the table. *)
Theorem calculator_sends_one_request :
  forall (env : Env) (p : Decimal) (c : CurrencyEnum) (d : date) (w : World),
    trace (snd (calculate_prices env p c d w)) = EvRequest (rate_url c d) :: trace w
    /\ store (snd (calculate_prices env p c d w)) = store w.
Proof.
  intros env p c d w.
  destruct (calculate_prices env p c d w) as [r w'] eqn:H.
  destruct (calculate_prices_world _ _ _ _ _ _ _ H). cbn [snd]. split; assumption.
Qed.

(** X10: [calculate_prices] has no handler: an exception that leaves the
    lookup leaves the calculator unchanged. *)
Theorem lookup_exception_leaves_calculator :
  forall (env : Env) (p : Decimal) (c : CurrencyEnum) (d : date) (w w' : World) (e : Exn),
    get_exchange_rate env c (counterpart c) d w = (Raise e, w') ->
    calculate_prices env p c d w = (Raise e, w').
Proof.
  intros env p c d w w' e H.
  destruct c; cbn [counterpart] in H; unfold calculate_prices, bind; rewrite H; reflexivity.
Qed.

(** A provider whose dollar rate is the JSON value [true]. *)
Lemma lookup_exception_leaves_calculator_witness :
  calculate_prices
    (answering (Some (JObject [("rates", JObject [("USD", JBool true)])])))
    d10_50 EUR d_2023_01_01 empty_world
  = (Raise (DecimalException Dec.InvalidOperation),
     {| store := store empty_world;
        trace := [EvRequest "https://api.exchangerate-api.com/v4/historical/EUR/2023-01-01"] |}).
Proof.
  apply (lookup_exception_leaves_calculator
           (answering (Some (JObject [("rates", JObject [("USD", JBool true)])])))
           d10_50 EUR d_2023_01_01 empty_world).
  reflexivity.
Defined.

(** X11: when the lookup yields a rate and the decimal product of price and
    rate signals a trapped condition, [calculate_prices] raises the
    corresponding decimal exception. *)
Theorem trapped_product_leaves_calculator :
  forall (env : Env) (p r : Decimal) (c : CurrencyEnum) (d : date) (w w' : World)
         (s : Dec.Signal),
    get_exchange_rate env c (counterpart c) d w = (Return (Some r), w') ->
    Dec.mul p r = inl s ->
    calculate_prices env p c d w = (Raise (DecimalException s), w').
Proof.
  intros env p r c d w w' s H Hm.
  destruct c; cbn [counterpart] in H;
    unfold calculate_prices, Decimal_mul, bind; rewrite H, Hm; reflexivity.
Qed.

Lemma trapped_product_leaves_calculator_witness :
  calculate_prices env_rate_huge d10_50 EUR d_2023_01_01 empty_world
  = (Raise (DecimalException Dec.Overflow),
     {| store := store empty_world;
        trace := [EvRequest "https://api.exchangerate-api.com/v4/historical/EUR/2023-01-01"] |}).
Proof.
  apply (trapped_product_leaves_calculator env_rate_huge d10_50
           (Dec.Finite false 1 999999) EUR d_2023_01_01 empty_world);
    [reflexivity | vm_compute; reflexivity].
Defined.

(** The value that the digits of a number denote is at least the power of
    ten of their count, leading zeros apart. *)
Lemma of_uint_acc_lower :
  forall (l : Decimal.uint) (acc : positive),
    Z.pos acc * 10 ^ Z.of_nat (Decimal.nb_digits l) <= Z.pos (Pos.of_uint_acc l acc).
Proof.
  induction l as [|l IH|l IH|l IH|l IH|l IH|l IH|l IH|l IH|l IH|l IH]; intros acc;
    cbn [Pos.of_uint_acc Decimal.nb_digits];
    [rewrite Z.pow_0_r; lia | ..];
    rewrite Nat2Z.inj_succ, Z.pow_succ_r by lia;
    match goal with
    | |- _ <= Z.pos (Pos.of_uint_acc l ?a) => specialize (IH a)
    end;
    assert (0 < 10 ^ Z.of_nat (Decimal.nb_digits l)) by (apply Z.pow_pos_nonneg; lia);
    nia.
Qed.

Lemma of_uint_lower :
  forall d : Decimal.uint,
    Decimal.nzhead d <> Decimal.Nil ->
    10 ^ (Z.of_nat (Decimal.nb_digits (Decimal.nzhead d)) - 1) <= Z.of_N (N.of_uint d).
Proof.
  unfold N.of_uint.
  induction d as [|l IH|l IH|l IH|l IH|l IH|l IH|l IH|l IH|l IH|l IH]; intros Hnz;
    cbn [Decimal.nzhead Pos.of_uint Decimal.nb_digits] in *;
    [congruence | apply IH; assumption | ..];
    rewrite Nat2Z.inj_succ;
    replace (Z.succ (Z.of_nat (Decimal.nb_digits l)) - 1)
      with (Z.of_nat (Decimal.nb_digits l)) by lia;
    cbn [Z.of_N];
    match goal with
    | |- _ <= Z.pos (Pos.of_uint_acc l ?a) => pose proof (of_uint_acc_lower l a)
    end;
    assert (0 < 10 ^ Z.of_nat (Decimal.nb_digits l)) by (apply Z.pow_pos_nonneg; lia);
    nia.
Qed.

(** A coefficient below [10 ^ n] is written with at most [n] digits. *)
Lemma ndigits_bound :
  forall (c : N) (n : Z),
    0 < n -> Z.of_N c < 10 ^ n -> Dec.ndigits c <= n.
Proof.
  intros c n Hn Hc. unfold Dec.ndigits.
  destruct (N.eq_dec c 0) as [->|Hc0]; [cbn; lia|].
  pose proof (DecimalN.Unsigned.of_to c) as Hof.
  pose proof (DecimalN.Unsigned.to_of (N.to_uint c)) as Hto. rewrite Hof in Hto.
  destruct (Decimal.nzhead (N.to_uint c)) eqn:Hnz.
  1: { exfalso. unfold Decimal.unorm in Hto. rewrite Hnz in Hto.
       rewrite Hto in Hof. cbn in Hof. congruence. }
  all: assert (Hu : N.to_uint c = Decimal.nzhead (N.to_uint c))
         by (rewrite Hto at 1; unfold Decimal.unorm; rewrite Hnz; reflexivity);
       pose proof (of_uint_lower (N.to_uint c)) as Hlow;
       rewrite <- Hu, Hof in Hlow;
       assert (Hlt : 10 ^ (Z.of_nat (Decimal.nb_digits (N.to_uint c)) - 1) < 10 ^ n)
         by (eapply Z.le_lt_trans; [apply Hlow; rewrite Hu, Hnz; discriminate | exact Hc]);
       apply Z.pow_lt_mono_r_iff in Hlt; lia.
Qed.

(** A finite decimal that fits the context is left as it is by [_fix]. *)
Lemma fix_fitting :
  forall (s : bool) (c : N) (e : Z),
    Dec.ndigits c <= Dec.prec ->
    Dec.Etiny <= e ->
    Dec.ndigits c + e <= Dec.Emax + 1 ->
    Dec._fix (Dec.Finite s c e) = inr (Dec.Finite s c e).
Proof.
  intros s c e Hd Hlo Hhi. unfold Dec._fix.
  unfold Dec.Etop, Dec.Etiny, Dec.Emax, Dec.Emin, Dec.prec in *.
  destruct (N.eqb_spec c 0) as [->|Hc].
  - change (Dec.ndigits 0) with 1 in Hhi.
    rewrite Z.max_l by lia. rewrite Z.min_l by lia. reflexivity.
  - destruct (Z.ltb_spec (999999 - 28 + 1) (Dec.ndigits c + e - 28)); [lia|].
    destruct (Z.ltb_spec (Dec.ndigits c + e - 28) (-999999 - 28 + 1)).
    + destruct (Z.ltb_spec e (-999999 - 28 + 1)); [lia|reflexivity].
    + destruct (Z.ltb_spec e (Dec.ndigits c + e - 28)); [lia|reflexivity].
Qed.

(** X12: the product is exact whenever it fits the context: when the lookup
    yields a finite rate, the product of the coefficients of price and rate
    is below [10 ^ 28] and the sum of their exponents lies between -1000026
    and 999972, the converted price is the product of the coefficients with
    the sum of the exponents, negative when exactly one factor is; nothing
    is rounded. *)
Theorem converted_price_is_exact :
  forall (env : Env) (c : CurrencyEnum) (d : date) (w w' : World)
         (sp sr : bool) (cp cr : N) (ep er : Z),
    get_exchange_rate env c (counterpart c) d w
      = (Return (Some (Dec.Finite sr cr er)), w') ->
    (cp * cr < 10 ^ 28)%N ->
    -1000026 <= ep + er <= 999972 ->
    exists t,
      calculate_prices env (Dec.Finite sp cp ep) c d w = (Return t, w')
      /\ component c t = Dec.Finite sp cp ep
      /\ component (counterpart c) t = Dec.Finite (xorb sp sr) (cp * cr) (ep + er)
      /\ snd t = Dec.Finite sr cr er.
Proof.
  intros env c d w w' sp sr cp cr ep er H Hlt Hexp.
  assert (Hd : Dec.ndigits (cp * cr) <= 28).
  { apply ndigits_bound; [lia|].
    apply N2Z.inj_lt in Hlt. rewrite N2Z.inj_pow in Hlt. exact Hlt. }
  assert (Hm : Dec.mul (Dec.Finite sp cp ep) (Dec.Finite sr cr er)
               = inr (Dec.Finite (xorb sp sr) (cp * cr) (ep + er))).
  { cbn [Dec.mul]. apply fix_fitting;
      unfold Dec.Etiny, Dec.Emax, Dec.Emin, Dec.prec; lia. }
  destruct c; cbn [counterpart] in H;
    unfold calculate_prices, Decimal_mul, bind; rewrite H, Hm;
    eexists; (split; [reflexivity|]); repeat split.
Qed.

Lemma converted_price_is_exact_witness :
  exists t,
    calculate_prices env_rate_1_1 (Dec.Finite false 1055 (-2)) EUR d_2023_01_01 empty_world
      = (Return t,
         {| store := store empty_world;
            trace := [EvRequest "https://api.exchangerate-api.com/v4/historical/EUR/2023-01-01"] |})
    /\ component EUR t = Dec.Finite false 1055 (-2)
    /\ component USD t = Dec.Finite false 11605 (-3)
    /\ snd t = d1_1.
Proof.
  apply (converted_price_is_exact env_rate_1_1 EUR d_2023_01_01 empty_world _
           false false 1055 11 (-2) (-1));
    [reflexivity | reflexivity | lia].
Defined.

(** ** More on creation *)

(** The body of [create_beer_entry] on a store that raises nowhere. *)
Lemma create_body_when_store_works :
  forall env x w eur usd rate w1,
    store_wf (store w) ->
    (forall op, db_fault env op = None) ->
    calculate_prices env (c_original_price x) (c_original_currency x)
      (c_purchase_date x) w = (Return (eur, usd, rate), w1) ->
    let e := as_row env (next_id (store w)) (entry_of env x (eur, usd, rate)) in
    create_beer_entry_body env x w
    = (Return (Some e),
       {| store := {| rows := (rows (store w) ++ [e])%list;
                      next_id := next_id (store w) + 1 |};
          trace := EvCommit :: trace w1 |}).
Proof.
  intros env x w eur usd rate w1 [Hfresh _] Hok Hc e.
  destruct (calculate_prices_effects _ _ _ _ _ _ _ Hc) as [Hst _].
  unfold create_beer_entry_body. unfold bind at 1. rewrite Hc.
  unfold get_session, session_add, session_commit, session_refresh.
  rewrite ?Hok. unfold_monad. rewrite ?Hok. cbn.
  rewrite Hst, purge_nil, filter_all.
  rewrite find_fresh_row by (assumption || reflexivity).
  reflexivity.
Qed.

(** The events of the body of [create_beer_entry]: the request of the
    calculator, then at most the commit, which a returned entry has behind
    it. *)
Lemma create_body_trace :
  forall env x w r w',
    create_beer_entry_body env x w = (r, w') ->
    let u := rate_url (c_original_currency x) (c_purchase_date x) in
    (trace w' = EvRequest u :: trace w
     \/ trace w' = EvCommit :: EvRequest u :: trace w)
    /\ (forall a, r = Return a -> trace w' = EvCommit :: EvRequest u :: trace w).
Proof.
  intros env x w r w' H u.
  unfold create_beer_entry_body in H. unfold bind at 1 in H.
  destruct (calculate_prices env (c_original_price x) (c_original_currency x)
              (c_purchase_date x) w) as [[[[eur usd] rate]|ex] w1] eqn:Hc;
    destruct (calculate_prices_world _ _ _ _ _ _ _ Hc) as [Hst Htr]; fold u in Htr.
  - unfold get_session, session_add, session_commit, session_refresh in H.
    unfold_monad.
    destruct (db_fault env OpOpen) eqn:Hopen;
      [|destruct (db_fault env OpAdd) eqn:Hadd;
        [|destruct (db_fault env OpCommit) eqn:Hcommit;
          [|destruct (db_fault env OpRefresh) eqn:Hrefresh]]];
      cbn in H.
    all: try match type of H with
             | context [find ?f ?l] => destruct (find f l)
             end.
    all: inversion H; subst; cbn [store trace]; rewrite Htr;
      (split; [auto | intros a Ha; first [discriminate Ha | reflexivity]]).
  - unfold_monad. inversion H; subst.
    split; [left; assumption | intros a Ha; discriminate Ha].
Qed.

(** X13: [create_beer_entry] never raises: whatever the calculator and the
    store do, the caller receives an entry or [None]. *)
Theorem create_never_raises :
  forall (env : Env) (x : BeerEntryCreate) (w : World),
    exists r w', create_beer_entry env x w = (Return r, w').
Proof.
  intros env x w. unfold create_beer_entry, try_except.
  destruct (create_beer_entry_body env x w) as [[a|ex] w1]; unfold_monad; eauto.
Qed.

(** X14: a successful creation has sent exactly one request, for the
    original currency on the purchase date, then committed exactly once,
    and has shown no notification. *)
Theorem successful_create_events :
  forall (env : Env) (x : BeerEntryCreate) (w : World) (e : BeerEntry) (w' : World),
    create_beer_entry env x w = (Return (Some e), w') ->
    trace w' = EvCommit
               :: EvRequest (rate_url (c_original_currency x) (c_purchase_date x))
               :: trace w.
Proof.
  intros env x w e w' H. apply create_some_inv in H.
  destruct (create_body_trace _ _ _ _ _ H) as [_ Ht]. apply (Ht (Some e)). reflexivity.
Qed.

Lemma successful_create_events_witness :
  exists e w',
    create_beer_entry env_rate_1_1 beer_three two_beers = (Return (Some e), w')
    /\ trace w' = [EvCommit;
                   EvRequest "https://api.exchangerate-api.com/v4/historical/EUR/2023-01-01"].
Proof.
  eexists. eexists. split; [reflexivity|].
  apply (successful_create_events env_rate_1_1 beer_three two_beers _ _ eq_refl).
Defined.

(** X15: a failed creation shows exactly one notification, the text
    ["Error creating beer entry: "] followed by the exception, after the one
    request and at most one commit. *)
Theorem failed_create_notifies_once :
  forall (env : Env) (x : BeerEntryCreate) (w w' : World),
    create_beer_entry env x w = (Return None, w') ->
    let u := rate_url (c_original_currency x) (c_purchase_date x) in
    exists ex,
      trace w' = EvNotify "Error creating beer entry: " ex :: EvRequest u :: trace w
      \/ trace w' = EvNotify "Error creating beer entry: " ex
                    :: EvCommit :: EvRequest u :: trace w.
Proof.
  intros env x w w' H u. unfold create_beer_entry, try_except in H.
  destruct (create_beer_entry_body env x w) as [[a|ex] w1] eqn:Hb.
  - inversion H; subst.
    unfold create_beer_entry_body in Hb. unfold bind at 1 in Hb.
    destruct (calculate_prices env (c_original_price x) (c_original_currency x)
                (c_purchase_date x) w) as [[[[eur usd] rate]|ex] w1]; [|discriminate].
    unfold get_session, session_add, session_commit, session_refresh in Hb.
    unfold_monad. cbn in Hb.
    repeat innermost_case Hb; discriminate.
  - destruct (create_body_trace _ _ _ _ _ Hb) as [Ht _]. fold u in Ht.
    unfold_monad. inversion H; subst. cbn [trace]. exists ex.
    destruct Ht as [-> | ->]; auto.
Qed.

Lemma failed_create_notifies_once_witness :
  exists ex,
    trace (snd (create_beer_entry env_commit_fails test_beer empty_world))
      = EvNotify "Error creating beer entry: " ex
        :: EvRequest (rate_url EUR d_2023_01_01) :: trace empty_world
    \/ trace (snd (create_beer_entry env_commit_fails test_beer empty_world))
       = EvNotify "Error creating beer entry: " ex
         :: EvCommit :: EvRequest (rate_url EUR d_2023_01_01) :: trace empty_world.
Proof.
  apply (failed_create_notifies_once env_commit_fails test_beer empty_world).
  reflexivity.
Defined.

(** X16: when the calculator raises, [create_beer_entry] opens no session:
    it returns [None] with the table as it was, and the only events are the
    request and the notification of that exception. *)
Theorem calculator_failure_reaches_no_store :
  forall (env : Env) (x : BeerEntryCreate) (w w1 : World) (ex : Exn),
    calculate_prices env (c_original_price x) (c_original_currency x)
      (c_purchase_date x) w = (Raise ex, w1) ->
    create_beer_entry env x w
    = (Return None,
       {| store := store w;
          trace := EvNotify "Error creating beer entry: " ex
                   :: EvRequest (rate_url (c_original_currency x) (c_purchase_date x))
                   :: trace w |}).
Proof.
  intros env x w w1 ex Hc.
  destruct (calculate_prices_world _ _ _ _ _ _ _ Hc) as [Hst Htr].
  unfold create_beer_entry, try_except, create_beer_entry_body. unfold bind at 1.
  rewrite Hc. unfold_monad. rewrite Hst, Htr. reflexivity.
Qed.

Lemma calculator_failure_reaches_no_store_witness :
  create_beer_entry env_rates_null test_beer two_beers
  = (Return None,
     {| store := store two_beers;
        trace := [EvNotify "Error creating beer entry: " AttributeError;
                  EvRequest "https://api.exchangerate-api.com/v4/historical/EUR/2023-01-01"] |}).
Proof.
  apply (calculator_failure_reaches_no_store env_rates_null test_beer two_beers
           {| store := store two_beers;
              trace := [EvRequest "https://api.exchangerate-api.com/v4/historical/EUR/2023-01-01"] |}).
  reflexivity.
Defined.

(** X17: when the calculator returns and no call on the session raises,
    [create_beer_entry] succeeds: it returns the entry built from the input,
    the computed prices and rate as their columns hold them (two fractional
    digits for the three prices, six for the rate), the next identifier of
    the store and the clock, and that entry is the new last row. *)
Theorem create_succeeds_when_nothing_raises :
  forall (env : Env) (x : BeerEntryCreate) (w w1 : World) (eur usd rate : Decimal),
    store_wf (store w) ->
    (forall op, db_fault env op = None) ->
    calculate_prices env (c_original_price x) (c_original_currency x)
      (c_purchase_date x) w = (Return (eur, usd, rate), w1) ->
    exists e w',
      create_beer_entry env x w = (Return (Some e), w')
      /\ e = {| id := Some (next_id (store w));
                beer_name := c_beer_name x;
                original_price := to_column (rounds_up env) 2 (c_original_price x);
                original_currency := c_original_currency x;
                purchase_date := c_purchase_date x;
                eur_price := to_column (rounds_up env) 2 eur;
                usd_price := to_column (rounds_up env) 2 usd;
                exchange_rate := to_column (rounds_up env) 6 rate;
                created_at := utcnow env |}
      /\ rows (store w') = (rows (store w) ++ [e])%list.
Proof.
  intros env x w w1 eur usd rate Hwf Hok Hc.
  pose proof (create_body_when_store_works _ _ _ _ _ _ _ Hwf Hok Hc) as Hb.
  cbv zeta in Hb.
  eexists. eexists. split.
  - unfold create_beer_entry, try_except. rewrite Hb. reflexivity.
  - split; reflexivity.
Qed.

Lemma create_succeeds_when_nothing_raises_witness :
  exists e w',
    create_beer_entry env_rate_1_1 beer_three two_beers = (Return (Some e), w')
    /\ e = {| id := Some 3;
              beer_name := "Beer Three";
              original_price := d10_50;
              original_currency := EUR;
              purchase_date := d_2023_01_01;
              eur_price := d10_50;
              usd_price := Dec.Finite false 1155 (-2);
              exchange_rate := Dec.Finite false 1100000 (-6);
              created_at := 1672531200000000 |}
    /\ rows (store w') = (rows (store two_beers) ++ [e])%list.
Proof.
  apply (create_succeeds_when_nothing_raises env_rate_1_1 beer_three two_beers
           {| store := store two_beers;
              trace := [EvRequest "https://api.exchangerate-api.com/v4/historical/EUR/2023-01-01"] |}
           d10_50 (Dec.Finite false 11550 (-3)) d1_1 two_beers_wf (fun op => eq_refl)).
  reflexivity.
Defined.

(** X18: an unavailable rate does not make the creation fail: when the
    lookup returns [None] and no call on the session raises, the entry is
    created and stored with the original price, at two fractional digits,
    in its own currency, the price [Decimal("0.00")] in the other one and
    the rate [Decimal("1.000000")]. *)
Theorem unavailable_rate_stores_zero :
  forall (env : Env) (x : BeerEntryCreate) (w w1 : World),
    store_wf (store w) ->
    (forall op, db_fault env op = None) ->
    get_exchange_rate env (c_original_currency x) (counterpart (c_original_currency x))
      (c_purchase_date x) w = (Return None, w1) ->
    exists e w',
      create_beer_entry env x w = (Return (Some e), w')
      /\ In e (rows (store w'))
      /\ price_in (c_original_currency x) e
         = to_column (rounds_up env) 2 (c_original_price x)
      /\ price_in (counterpart (c_original_currency x)) e = Dec.Finite false 0 (-2)
      /\ exchange_rate e = Dec.Finite false 1000000 (-6).
Proof.
  intros env x w w1 Hwf Hok Hg.
  assert (Hc : exists eur usd,
             calculate_prices env (c_original_price x) (c_original_currency x)
               (c_purchase_date x) w = (Return (eur, usd, Dec.one_point_zero), w1)
             /\ match c_original_currency x with
                | EUR => eur = c_original_price x /\ usd = Dec.zero
                | USD => usd = c_original_price x /\ eur = Dec.zero
                end).
  { unfold calculate_prices, bind.
    destruct (c_original_currency x); cbn [counterpart] in Hg; rewrite Hg;
      eexists; eexists; split; try reflexivity; split; reflexivity. }
  destruct Hc as [eur [usd [Hc Hshape]]].
  pose proof (create_body_when_store_works _ _ _ _ _ _ _ Hwf Hok Hc) as Hb.
  cbv zeta in Hb.
  eexists. eexists. split.
  - unfold create_beer_entry, try_except. rewrite Hb. reflexivity.
  - cbn [store rows exchange_rate]. split.
    + apply in_or_app. right. left. reflexivity.
    + destruct (fallback_in_columns (rounds_up env)) as [Hz Ho].
      destruct (c_original_currency x); destruct Hshape as [-> ->];
        cbn [price_in counterpart as_row entry_of eur_price usd_price
             exchange_rate fst snd]; auto.
Qed.

Lemma unavailable_rate_stores_zero_witness :
  exists e w',
    create_beer_entry env_unreachable test_beer two_beers = (Return (Some e), w')
    /\ In e (rows (store w'))
    /\ price_in EUR e = d10_50
    /\ price_in USD e = Dec.Finite false 0 (-2)
    /\ exchange_rate e = Dec.Finite false 1000000 (-6).
Proof.
  apply (unavailable_rate_stores_zero env_unreachable test_beer two_beers
           {| store := store two_beers;
              trace := [EvRequest "https://api.exchangerate-api.com/v4/historical/EUR/2023-01-01"] |}
           two_beers_wf (fun op => eq_refl)).
  reflexivity.
Defined.

(** ** More on deletion and listing *)

Lemma has_id_true :
  forall i r, has_id i r = true <-> id r = Some i.
Proof.
  intros i r. unfold has_id. destruct (id r) as [j|].
  - rewrite Z.eqb_eq. split; congruence.
  - split; discriminate.
Qed.

Lemma in_purge_one :
  forall i st r,
    In r (rows (purge [i] st)) <-> In r (rows st) /\ id r <> Some i.
Proof.
  intros i st r. unfold purge. cbn [rows]. rewrite filter_In. cbn [existsb].
  rewrite orb_false_r, negb_true_iff.
  split; intros [Hin H]; (split; [assumption|]).
  - intros Hid. apply has_id_true in Hid. congruence.
  - destruct (has_id i r) eqn:Hh; [|reflexivity].
    apply has_id_true in Hh. contradiction.
Qed.

(** What [delete_beer_entry] has done when it answers [True]. *)
Lemma delete_true_store :
  forall env i w w',
    delete_beer_entry env i w = (Return true, w') ->
    store w' = purge [i] (store w)
    /\ trace w' = EvCommit :: trace w
    /\ exists e, find (has_id i) (rows (store w)) = Some e.
Proof.
  intros env i w w' H.
  unfold delete_beer_entry, delete_beer_entry_body,
    get_session, session_get, session_delete, session_commit in H.
  unfold_monad.
  destruct (db_fault env OpOpen); [discriminate|].
  destruct (db_fault env OpGet); [discriminate|].
  cbn [store trace] in H.
  destruct (find (has_id i) (rows (store w))) as [entry|] eqn:Hf; [|discriminate].
  destruct (db_fault env OpDelete); [discriminate|].
  destruct (db_fault env OpCommit); [discriminate|].
  destruct (find_has_id _ _ _ Hf) as [_ Hid]. rewrite Hid in H. cbn in H.
  inversion H; subst. cbn [store trace]. eauto.
Qed.

(** X19: when [delete_beer_entry] answers [True], whatever the store was, a
    row with that identifier existed, exactly one commit was made, and the
    rows afterwards are the former rows that do not carry the identifier:
    none with it is left and no other is lost. *)
Theorem true_means_removed :
  forall (env : Env) (i : Z) (w w' : World),
    delete_beer_entry env i w = (Return true, w') ->
    (exists e, In e (rows (store w)) /\ id e = Some i)
    /\ (forall r, In r (rows (store w')) <-> In r (rows (store w)) /\ id r <> Some i)
    /\ next_id (store w') = next_id (store w)
    /\ trace w' = EvCommit :: trace w.
Proof.
  intros env i w w' H.
  destruct (delete_true_store _ _ _ _ H) as [Hs [Ht [e He]]].
  split; [exists e; apply find_has_id; exact He|].
  split; [intros r; rewrite Hs; apply in_purge_one|].
  split; [rewrite Hs; reflexivity | exact Ht].
Qed.

Lemma true_means_removed_witness :
  exists w',
    delete_beer_entry env_rate_1_1 2 two_beers = (Return true, w')
    /\ (forall r, In r (rows (store w')) <-> In r (rows (store two_beers)) /\ id r <> Some 2)
    /\ trace w' = [EvCommit].
Proof.
  eexists. split; [reflexivity|].
  destruct (true_means_removed env_rate_1_1 2 two_beers _ eq_refl) as [_ [Hrows [_ Ht]]].
  split; [exact Hrows | exact Ht].
Defined.

(** X20: deleting the same identifier again, on a store that raises nowhere,
    answers [False] and changes nothing. *)
Theorem second_delete_finds_nothing :
  forall (env env2 : Env) (i : Z) (w w' : World),
    delete_beer_entry env i w = (Return true, w') ->
    (forall op, db_fault env2 op = None) ->
    delete_beer_entry env2 i w' = (Return false, w').
Proof.
  intros env env2 i w w' H Hok.
  destruct (delete_true_store _ _ _ _ H) as [Hs _].
  assert (Hf : find (has_id i) (rows (store w')) = None).
  { apply find_absent. intros r Hin. rewrite Hs in Hin.
    apply in_purge_one in Hin. tauto. }
  unfold delete_beer_entry, delete_beer_entry_body, get_session, session_get.
  rewrite ?Hok. unfold_monad. rewrite ?Hok. cbn [store trace]. rewrite Hf.
  destruct w'; reflexivity.
Qed.

Lemma second_delete_finds_nothing_witness :
  exists w',
    delete_beer_entry env_rate_1_1 1 two_beers = (Return true, w')
    /\ delete_beer_entry env_unreachable 1 w' = (Return false, w').
Proof.
  eexists. split; [reflexivity|].
  apply (second_delete_finds_nothing env_rate_1_1 env_unreachable 1 two_beers _ eq_refl).
  intros op. reflexivity.
Defined.

(** X21: when a call on the session raises inside [delete_beer_entry], the
    answer is [False], the table is left as it was, at most one commit was
    attempted, and exactly one notification, ["Error deleting entry: "]
    followed by the exception, is shown. *)
Theorem failed_delete_keeps_table :
  forall (env : Env) (i : Z) (w w1 : World) (ex : Exn),
    delete_beer_entry_body env i w = (Raise ex, w1) ->
    exists w',
      delete_beer_entry env i w = (Return false, w')
      /\ store w' = store w
      /\ (trace w' = EvNotify "Error deleting entry: " ex :: trace w
          \/ trace w' = EvNotify "Error deleting entry: " ex :: EvCommit :: trace w).
Proof.
  intros env i w w1 ex H.
  unfold delete_beer_entry, try_except. rewrite H.
  unfold delete_beer_entry_body,
    get_session, session_get, session_delete, session_commit in H.
  unfold_monad. eexists. split; [reflexivity|]. cbn [store trace].
  destruct (db_fault env OpOpen); [inversion H; subst; auto|].
  destruct (db_fault env OpGet); [inversion H; subst; auto|].
  cbn [store trace] in H.
  destruct (find (has_id i) (rows (store w))) as [entry|]; [|discriminate].
  destruct (db_fault env OpDelete); [inversion H; subst; auto|].
  destruct (db_fault env OpCommit); [inversion H; subst; cbn; auto|].
  cbn in H. discriminate.
Qed.

Lemma failed_delete_keeps_table_witness :
  exists w',
    delete_beer_entry env_commit_fails 1 two_beers = (Return false, w')
    /\ store w' = store two_beers
    /\ (trace w' = EvNotify "Error deleting entry: " DatabaseError :: trace two_beers
        \/ trace w' = EvNotify "Error deleting entry: " DatabaseError
                      :: EvCommit :: trace two_beers).
Proof.
  apply (failed_delete_keeps_table env_commit_fails 1 two_beers
           {| store := store two_beers; trace := [EvCommit] |}).
  reflexivity.
Defined.

(** X22: an unknown identifier is answered without a commit and without a
    notification, whatever the removal and the commit would have done: only
    the opening of the session and the lookup have to work. *)
Theorem unknown_id_is_silent :
  forall (env : Env) (i : Z) (w : World),
    db_fault env OpOpen = None ->
    db_fault env OpGet = None ->
    (forall e, In e (rows (store w)) -> id e <> Some i) ->
    delete_beer_entry env i w = (Return false, w).
Proof.
  intros env i w Ho Hg Habs.
  unfold delete_beer_entry, delete_beer_entry_body, get_session, session_get.
  unfold_monad. rewrite Ho, Hg. cbn [store trace].
  rewrite (find_absent _ _ Habs). destruct w; reflexivity.
Qed.

Lemma unknown_id_is_silent_witness :
  delete_beer_entry env_commit_fails 999 two_beers = (Return false, two_beers).
Proof.
  apply (unknown_id_is_silent env_commit_fails 999 two_beers); try reflexivity.
  cbn. intros e [<-|[<-|[]]]; discriminate.
Defined.

Lemma filter_fresh_rows :
  forall (l : list BeerEntry) (n : Z),
    Forall (fun e => exists i, id e = Some i /\ i < n) l ->
    filter (fun r => negb (existsb (fun j => has_id j r) [n])) l = l.
Proof.
  intros l n Hall. apply forallb_filter_id. apply forallb_forall.
  intros r Hin. rewrite Forall_forall in Hall.
  destruct (Hall r Hin) as [i [Hi Hlt]].
  cbn. unfold has_id. rewrite Hi.
  destruct (Z.eqb_spec n i); [lia|reflexivity].
Qed.

(** X23: creating an entry and then deleting the identifier it was given,
    on a store that raises nowhere, answers [True] and gives back the rows
    that were there before the creation. *)
Theorem create_then_delete_restores_rows :
  forall (env env2 : Env) (x : BeerEntryCreate) (w : World) (e : BeerEntry) (w' : World),
    store_wf (store w) ->
    (forall op, db_fault env2 op = None) ->
    create_beer_entry env x w = (Return (Some e), w') ->
    exists i w'',
      id e = Some i
      /\ delete_beer_entry env2 i w' = (Return true, w'')
      /\ rows (store w'') = rows (store w).
Proof.
  intros env env2 x w e w' Hwf Hok H. apply create_some_inv in H.
  destruct (create_body_success _ _ _ _ _ Hwf H)
    as [[[eur usd] rate] [w1 [_ [He [Hst _]]]]].
  destruct Hwf as [Hall _].
  assert (Hid : id e = Some (next_id (store w))) by (subst e; reflexivity).
  exists (next_id (store w)). eexists. split; [exact Hid|].
  unfold delete_beer_entry, delete_beer_entry_body,
    get_session, session_get, session_delete, session_commit.
  rewrite ?Hok. unfold_monad. rewrite ?Hok. cbn [store trace]. rewrite Hst. cbn [rows].
  rewrite (find_fresh_row _ _ _ Hall Hid). rewrite Hid. cbn [flush objects deleted].
  split; [reflexivity|].
  cbn [store]. rewrite Hst. unfold purge. cbn [rows].
  rewrite filter_app, (filter_fresh_rows _ _ Hall).
  cbn [filter existsb]. unfold has_id. rewrite Hid, Z.eqb_refl. cbn.
  apply app_nil_r.
Qed.

Lemma create_then_delete_restores_rows_witness :
  exists e w' i w'',
    create_beer_entry env_rate_1_1 beer_three two_beers = (Return (Some e), w')
    /\ id e = Some i
    /\ delete_beer_entry env_rate_1_1 i w' = (Return true, w'')
    /\ rows (store w'') = [beer_one; beer_two].
Proof.
  eexists. eexists.
  destruct (create_then_delete_restores_rows env_rate_1_1 env_rate_1_1 beer_three
              two_beers _ _ two_beers_wf (fun op => eq_refl) eq_refl)
    as [i [w'' [Hid [Hd Hr]]]].
  exists i, w''. split; [reflexivity|]. split; [exact Hid|]. split; [exact Hd | exact Hr].
Defined.

(** X24: [get_all_beer_entries] has no handler: when the opening of the
    session or the query raises, the exception reaches the caller, and the
    world is left as it was. *)
Theorem listing_lets_store_errors_through :
  forall (env : Env) (w : World) (ex : Exn),
    db_fault env OpOpen = Some ex
    \/ (db_fault env OpOpen = None /\ db_fault env OpExec = Some ex) ->
    get_all_beer_entries env w = (Raise ex, w).
Proof.
  intros env w ex H.
  unfold get_all_beer_entries, get_session, session_exec_select. unfold_monad.
  destruct H as [Ho | [Ho He]]; rewrite Ho; [reflexivity|]. rewrite He. reflexivity.
Qed.

Lemma listing_lets_store_errors_through_witness :
  get_all_beer_entries env_open_fails two_beers = (Raise DatabaseError, two_beers).
Proof.
  apply (listing_lets_store_errors_through env_open_fails two_beers).
  left. reflexivity.
Defined.

(** ** The table across calls *)

Lemma run_keeps_wf :
  forall c w,
    store_wf (store w) ->
    store_wf (store (run c w)) /\ next_id (store w) <= next_id (store (run c w)).
Proof.
  intros c w [Hall Hnd].
  destruct (run_store_cases c w) as [Hs|[[n [Hn Hs]]|[j Hs]]]; rewrite Hs.
  - split; [split; assumption | lia].
  - cbn [next_id]. split; [|lia]. split; cbn [rows next_id].
    + apply Forall_app. split.
      * eapply Forall_impl; [|exact Hall].
        cbn. intros r [k [Hk Hlk]]. exists k. split; [assumption|lia].
      * constructor; [|constructor]. exists (next_id (store w)). split; [assumption|lia].
    + rewrite map_app. apply NoDup_app; [assumption|cbn; constructor; [tauto|constructor]|].
      intros a Ha [<-|[]]. apply in_map_iff in Ha. destruct Ha as [r [Hr Hin]].
      rewrite Forall_forall in Hall. destruct (Hall r Hin) as [k [Hk Hlk]].
      rewrite Hn, Hk in Hr. inversion Hr. lia.
  - unfold purge. cbn [next_id]. split; [|lia]. split; cbn [rows next_id].
    + rewrite Forall_forall in *. intros r Hin. apply filter_In in Hin. apply Hall. tauto.
    + apply NoDup_map_filter. assumption.
Qed.

(** X25: whatever calls of the service follow one another, and whatever the
    provider and the store do in each, the table keeps its shape: every row
    has an identifier below the next one to be assigned, and no two rows
    share an identifier. *)
Theorem service_keeps_identifiers_unique :
  forall (calls : list Call) (w : World),
    store_wf (store w) ->
    store_wf (store (run_all calls w)).
Proof.
  induction calls as [|c calls IH]; intros w Hwf; [assumption|].
  cbn [run_all fold_left].
  destruct (run_keeps_wf c w Hwf) as [Hwf' _].
  exact (IH (run c w) Hwf').
Qed.

Lemma service_keeps_identifiers_unique_witness :
  store_wf (store (run_all [CallCreate env_rate_1_1 beer_three;
                            CallDelete env_commit_fails 1;
                            CallDelete env_rate_1_1 2;
                            CallCreate env_refresh_fails test_beer;
                            CallList env_open_fails] two_beers)).
Proof.
  apply (service_keeps_identifiers_unique
           [CallCreate env_rate_1_1 beer_three;
            CallDelete env_commit_fails 1;
            CallDelete env_rate_1_1 2;
            CallCreate env_refresh_fails test_beer;
            CallList env_open_fails] two_beers two_beers_wf).
Defined.
